(** * DMN_Data.py: the DarkMatterNet data pipeline

    A shallow embedding of [load_data] and [make_dataset] and of the two
    column-name schemas, with the properties of the pipeline proved over it.

    - float64 cells are [spec_float] values with the binary64 parameters,
      so NaN, the infinities and rounding behave as in numpy;
    - a DataFrame is a list of column names and a list of rows, each row
      carrying its index label;
    - numpy's generator is an interface ([NumpyRandom]): the pipeline only
      relies on [permutation] returning a permutation of [range(n)];
    - exceptions are values of [result]. *)

From Stdlib Require Import ZArith Floats.SpecFloat.
From stdpp Require Import gmap strings list fin_maps.

(** ** float64 *)

Module F64.

Local Open Scope Z_scope.

Definition prec : Z := 53.
Definition emax : Z := 1024.

Definition float := spec_float.

Definition nan : float := S754_nan.
Definition zero : float := S754_zero false.

Definition sub : float → float → float := SFsub prec emax.
Definition mul : float → float → float := SFmul prec emax.
Definition div : float → float → float := SFdiv prec emax.

(** [x < y], [x <= y] and [x >= y] of IEEE 754: false when either side
    is NaN. *)
Definition ltb : float → float → bool := SFltb.
Definition leb : float → float → bool := SFleb.
Definition geb (x y : float) : bool := SFleb y x.

Definition is_nan (x : float) : bool :=
  match x with S754_nan => true | _ => false end.

(** A Python [int] converted to float64 (round to nearest, ties to
    even); the result is an infinity when the integer is out of range. *)
Definition of_Z (n : Z) : float := binary_normalize prec emax n 0 false.

(** The float64 nearest to [m / 10^k], for [m] and [10^k] below 2^53:
    a decimal literal such as [0.1] or [0.0000001]. *)
Definition of_decimal (m : Z) (k : Z) : float := div (of_Z m) (of_Z (10 ^ k)).

(** Round half to even of [m / 2^k]. *)
Definition round_half_even_shift (m : Z) (k : Z) : Z :=
  let q := Z.shiftr m k in
  let r := Z.land m (Z.ones k) in
  match Z.compare (2 * r) (2 ^ k) with
  | Lt => q
  | Gt => q + 1
  | Eq => if Z.even q then q else q + 1
  end.

(** Python's [round(x)] on a float: the nearest integer, ties to even;
    [None] on NaN (ValueError) and on the infinities (OverflowError). *)
Definition round (x : float) : option Z :=
  match x with
  | S754_zero _ => Some 0
  | S754_nan | S754_infinity _ => None
  | S754_finite s m e =>
      let v := if Z.leb 0 e then Z.shiftl (Zpos m) e
               else round_half_even_shift (Zpos m) (- e) in
      Some (if s then - v else v)
  end.

#[global] Instance float_eq_dec : EqDecision float.
Proof. unfold float. solve_decision. Defined.

End F64.

Abbreviation float := F64.float.

(** ** The two schemas *)

(** List of column names assigned when the Illustris dataset is loaded. *)
Definition ILLUSTRIS_COLUMN_NAMES : list string :=
  [ "Pre_Drop_Index"; "SubhaloBHMass"; "SubhaloBHMdot"; "SubhaloGasMetallicity";
    "SubhaloGasMetallicityHalfRad"; "SubhaloGasMetallicityMaxRad";
    "SubhaloGasMetallicitySfr"; "SubhaloGasMetallicitySfrWeighted";
    "SubhaloGrNr"; "SubhaloHalfmassRad"; "SubhaloIDMostbound"; "SubhaloLen";
    "SubhaloMass"; "SubhaloMassInHalfRad"; "SubhaloMassInMaxRad";
    "SubhaloMassInRad"; "SubhaloParent"; "SubhaloSFR"; "SubhaloSFRinHalfRad";
    "SubhaloSFRinMaxRad"; "SubhaloSFRinRad"; "SubhaloStarMetallicity";
    "SubhaloStarMetallicityHalfRad"; "SubhaloStarMetallicityMaxRad";
    "SubhaloStellarPhotometricsMassInRad"; "SubhaloStellarPhotometricsRad";
    "SubhaloVelDisp"; "SubhaloVmax"; "SubhaloVmaxRad"; "SubhaloWindMass";
    "SubhaloSublinkID"; "SubhaloHalfmassRadType0"; "SubhaloHalfmassRadType1";
    "SubhaloHalfmassRadType2"; "SubhaloHalfmassRadType3";
    "SubhaloHalfmassRadType4"; "SubhaloHalfmassRadType5";
    "SubhaloMassInHalfRadType0"; "SubhaloMassInHalfRadType1";
    "SubhaloMassInHalfRadType2"; "SubhaloMassInHalfRadType3";
    "SubhaloMassInHalfRadType4"; "SubhaloMassInHalfRadType5";
    "SubhaloMassInMaxRadType0"; "SubhaloMassInMaxRadType1";
    "SubhaloMassInMaxRadType2"; "SubhaloMassInMaxRadType3";
    "SubhaloMassInMaxRadType4"; "SubhaloMassInMaxRadType5";
    "SubhaloMassInRadType0"; "SubhaloMassInRadType1"; "SubhaloMassInRadType2";
    "SubhaloMassInRadType3"; "SubhaloMassInRadType4"; "SubhaloMassInRadType5";
    "SubhaloMassType0"; "SubhaloMassType1"; "SubhaloMassType2";
    "SubhaloMassType3"; "SubhaloMassType4"; "SubhaloMassType5";
    "SubhaloStellarPhotometricsU"; "SubhaloStellarPhotometricsB";
    "SubhaloStellarPhotometricsV"; "SubhaloStellarPhotometricsK";
    "SubhaloStellarPhotometricsg"; "SubhaloStellarPhotometricsr";
    "SubhaloStellarPhotometricsi"; "SubhaloStellarPhotometricsz";
    "SubhaloID"; "B300"; "B1000"; "TotalSFRMass" ]%string.

(** List of column names assigned when the NYU dataset is loaded. *)
Definition NYU_COLUMN_NAMES : list string :=
  [ "Pre_Drop_Index"; "SubhaloMassInRadType4"; "SubhaloGasMetallicity";
    "B300"; "B1000" ]%string.

(** ** Exceptions *)

Inductive exn :=
  | ValueError | KeyError | AttributeError | IndexError | OverflowError.

Inductive result (A : Type) :=
  | Ok (a : A)
  | Raise (e : exn).
Arguments Ok {A} a.
Arguments Raise {A} e.

#[global] Instance result_ret : MRet result := λ A a, Ok a.
#[global] Instance result_bind : MBind result := λ A B k r,
  match r with Ok a => k a | Raise e => Raise e end.

Definition or_raise {A} (e : exn) (o : option A) : result A :=
  match o with Some a => Ok a | None => Raise e end.

(** ** DataFrames *)

(** A row: its index label and its cells, in column order. *)
Definition Row : Type := nat * list float.

Record DataFrame := mkDF { columns : list string; rows : list Row }.

(** A Series: index labels with one value each. *)
Definition Series : Type := list (nat * float).

Definition index (df : DataFrame) : list nat := (rows df).*1.

(** [Index.get_loc]: the position of a column name. *)
Definition get_loc (cols : list string) (name : string) : option nat :=
  fst <$> list_find (λ c, c = name) cols.

(** The cell of a row at a column position; a field a short line of the
    file does not have reads NaN, as [read_csv] fills it. *)
Definition cell (p : nat) (r : Row) : float := default F64.nan (r.2 !! p).

Definition set_cell (p : nat) (v : float) (r : Row) : Row := (r.1, <[p:=v]> r.2).

(** [pd.read_csv(file, header=0, names=names, dtype=np.float64)]: the
    header line is discarded (the body starts after it), the columns are
    named by position and the rows are numbered from 0. *)
Definition read_csv (names : list string) (body : list (list float)) : DataFrame :=
  mkDF names (imap (λ i cells, (i, cells)) body).

(** [df.target -= df.other] *)
Definition isub_column (df : DataFrame) (target other : string) : result DataFrame :=
  pt ← or_raise AttributeError (get_loc (columns df) target);
  po ← or_raise AttributeError (get_loc (columns df) other);
  Ok (mkDF (columns df)
        (map (λ r, set_cell pt (F64.sub (cell pt r) (cell po r)) r) (rows df))).

(** [df.target /= d] *)
Definition idiv_column (df : DataFrame) (target : string) (d : float) : result DataFrame :=
  pt ← or_raise AttributeError (get_loc (columns df) target);
  Ok (mkDF (columns df)
        (map (λ r, set_cell pt (F64.div (cell pt r) d) r) (rows df))).

(** [df[test(df.name)].index]: the labels of the rows whose cell passes
    the test. *)
Definition mask_index (df : DataFrame) (name : string) (test : float → bool)
  : result (list nat) :=
  p ← or_raise AttributeError (get_loc (columns df) name);
  Ok (filter (λ r, test (cell p r) = true) (rows df)).*1.

(** [df.drop(labels)]: every row whose label is listed is removed; a label
    that is not in the index is a KeyError. *)
Definition drop (df : DataFrame) (labels : list nat) : result DataFrame :=
  if decide (labels ⊆ index df)
  then Ok (mkDF (columns df) (filter (λ r, r.1 ∉ labels) (rows df)))
  else Raise KeyError.

(** [df.take(locs)]: the rows at the given positions, in that order. *)
Definition take_rows (df : DataFrame) (locs : list nat) : result DataFrame :=
  rs ← or_raise IndexError (mapM (λ p, rows df !! p) locs);
  Ok (mkDF (columns df) rs).

(** [df.pop(name)]: the column as a Series, and the frame without it. *)
Definition pop (df : DataFrame) (name : string) : result (DataFrame * Series) :=
  p ← or_raise KeyError (get_loc (columns df) name);
  Ok (mkDF (delete p (columns df)) (map (λ r, (r.1, delete p r.2)) (rows df)),
      map (λ r, (r.1, cell p r)) (rows df)).

(** ** numpy's random generator *)

(** [seed_state s] is [RandomState(s)], [entropy_state w] the generator
    numpy seeds from the operating system when the seed is [None], and
    [permutation g n] is [g.permutation(n)]. *)
Class NumpyRandom := {
  rng_state : Type;
  entropy : Type;
  seed_state : Z → rng_state;
  entropy_state : entropy → rng_state;
  permutation : rng_state → nat → list nat;
  permutation_range : ∀ g n, permutation g n ≡ₚ seq 0 n
}.

(** [np.random.seed(seed)] accepts [None] and the integers of
    [0, 2^32 - 1]. *)
Definition valid_seed (seed : option Z) : bool :=
  match seed with
  | None => true
  | Some s => Z.leb 0 s && Z.ltb s (2 ^ 32)%Z
  end.

(** The size of [sample(frac=frac)] on [obj_len] rows. *)
Definition sample_size (frac : float) (obj_len : nat) : result Z :=
  if F64.ltb (F64.of_Z 1) frac then Raise ValueError
  else if F64.ltb frac F64.zero then Raise ValueError
  else
    let n := F64.of_Z (Z.of_nat obj_len) in
    match n with
    | S754_infinity _ => Raise OverflowError
    | _ =>
        match F64.mul frac n with
        | S754_nan => Raise ValueError
        | x => or_raise OverflowError (F64.round x)
        end
    end.

Section Pipeline.
Context {R : NumpyRandom}.

(** [g.choice(pop_size, size=size, replace=False)] *)
Definition choice (g : rng_state) (pop_size : nat) (size : Z) : result (list nat) :=
  if Z.ltb size 0 then Raise ValueError
  else if Z.ltb (Z.of_nat pop_size) size then Raise ValueError
  else Ok (take (Z.to_nat size) (permutation g pop_size)).

(** [df.sample(frac=frac, random_state=g)] *)
Definition sample (df : DataFrame) (frac : float) (g : rng_state) : result DataFrame :=
  let obj_len := length (rows df) in
  size ← sample_size frac obj_len;
  locs ← choice g obj_len size;
  take_rows df locs.

(** The two files, after their header line. *)
Record Files := mkFiles {
  Illustris_V3_csv : list (list float);
  NYU_csv : list (list float)
}.

(** Function which loads Illustris and NYU datasets. *)
Definition raw_dataframe (files : Files) : DataFrame * DataFrame :=
  (read_csv ILLUSTRIS_COLUMN_NAMES (Illustris_V3_csv files),
   read_csv NYU_COLUMN_NAMES (NYU_csv files)).

Definition default_label_name : string := "SubhaloMassInRad".
Definition default_train_fraction : float := F64.of_decimal 8 1.

(** Illustris: the table after the stellar-mass correction and the two
    cuts ([iData_halo_cut]). *)
Definition iData_halo_cut (iData : DataFrame) : result DataFrame :=
  iData ← isub_column iData "SubhaloMassInRadType4" "SubhaloWindMass";
  neg ← mask_index iData "SubhaloMassInRadType4" (λ x, F64.ltb x F64.zero);
  iData_stell_cut ← drop iData neg;
  low ← mask_index iData_stell_cut "SubhaloMassInRad"
          (λ x, F64.ltb x (F64.of_decimal 1 1));
  drop iData_stell_cut low.

(** NYU: the table after the unit conversion and the two cuts
    ([nData_stell_top_cut]). *)
Definition nData_stell_top_cut (nData : DataFrame) : result DataFrame :=
  nData ← idiv_column nData "SubhaloMassInRadType4" (F64.of_Z (10 ^ 10));
  low ← mask_index nData "SubhaloMassInRadType4"
          (λ x, F64.ltb x (F64.of_decimal 1 7));
  nData_stell_cut ← drop nData low;
  top ← mask_index nData_stell_cut "SubhaloMassInRadType4"
          (λ x, F64.geb x (F64.of_Z 150));
  drop nData_stell_cut top.

(** The generator the split draws from. *)
Definition split_state (os : entropy) (seed : option Z) : rng_state :=
  match seed with
  | Some s => seed_state s
  | None => entropy_state os
  end.

(** The random split of a table: [(train_features, test_features)]
    before the labels are popped. *)
Definition split (os : entropy) (df : DataFrame) (train_fraction : float)
    (seed : option Z) : result (DataFrame * DataFrame) :=
  if valid_seed seed then
    train_features ← sample df train_fraction (split_state os seed);
    test_features ← drop df (index train_features);
    Ok (train_features, test_features)
  else Raise ValueError.

(** Function which loads Illustris, NYU datasets; returns filtered Train
    & Test Set from Illustris, Predict Set from NYU.  [os] is the
    entropy numpy reads when [seed] is [None]; an absent [label_name] or
    [train_fraction] takes its default. *)
Definition load_data (os : entropy) (files : Files)
    (label_name : option string) (train_fraction : option float)
    (seed : option Z)
  : result ((DataFrame * Series) * (DataFrame * Series) * DataFrame) :=
  let label_name := default default_label_name label_name in
  let train_fraction := default default_train_fraction train_fraction in
  let '(iData, nData) := raw_dataframe files in
  halo_cut ← iData_halo_cut iData;
  NYU_features ← nData_stell_top_cut nData;
  '(train_features, test_features) ← split os halo_cut train_fraction seed;
  train ← pop train_features label_name;
  test ← pop test_features label_name;
  Ok (train, test, NYU_features).

End Pipeline.

(** ** tf.data *)

(** What [from_tensor_slices] is given: the dictionary of columns, alone or
    paired with the label values. *)
Inductive Tensors :=
  | Features (d : gmap string (list float))
  | Labeled (d : gmap string (list float)) (label : list float).

(** One element of the dataset: the column-name-to-scalar mapping of a
    row, alone or paired with the row's label. *)
Inductive Element :=
  | Record_ (m : gmap string float)
  | LabeledRecord (m : gmap string float) (y : float).

Definition columns_of (t : Tensors) : gmap string (list float) :=
  match t with Features d | Labeled d _ => d end.

(** The first dimension of every component, in flattening order. *)
Definition first_dims (t : Tensors) : list nat :=
  (length <$> (map_to_list (columns_of t)).*2) ++
  match t with Features _ => [] | Labeled _ label => [length label] end.

Record Dataset := mkDataset { tensors : Tensors; num_elements : nat }.

(** [tf.data.Dataset.from_tensor_slices]: the components are sliced along
    their first dimension, which they must share; an empty structure is
    rejected. *)
Definition from_tensor_slices (t : Tensors) : result Dataset :=
  match first_dims t with
  | [] => Raise ValueError
  | n :: dims =>
      if forallb (Nat.eqb n) dims then Ok (mkDataset t n) else Raise ValueError
  end.

Definition at_row (i : nat) (c : list float) : float := default F64.nan (c !! i).

Definition slice (t : Tensors) (i : nat) : Element :=
  match t with
  | Features d => Record_ (at_row i <$> d)
  | Labeled d label => LabeledRecord (at_row i <$> d) (at_row i label)
  end.

(** An iterator over a dataset: the position of the next element. *)
Record Iterator := mkIterator { source : Dataset; position : nat }.

Definition make_iterator (ds : Dataset) : Iterator := mkIterator ds 0.

(** [get_next]: the next element and the advanced iterator, or [None] at
    the end of the sequence (OutOfRangeError). *)
Definition get_next (it : Iterator) : option (Element * Iterator) :=
  if decide (position it < num_elements (source it))
  then Some (slice (tensors (source it)) (position it),
             mkIterator (source it) (S (position it)))
  else None.

(** The elements an iterator yields in at most [steps] calls. *)
Fixpoint iterate (steps : nat) (it : Iterator) : list Element :=
  match steps with
  | O => []
  | S steps =>
      match get_next it with
      | None => []
      | Some (e, it) => e :: iterate steps it
      end
  end.

(** [dict(features)]: column name to column values, for a table whose
    column names are distinct. *)
Definition dict (features : DataFrame) : gmap string (list float) :=
  list_to_map (imap (λ j name, (name, map (cell j) (rows features)))
                 (columns features)).

(** Function which takes in {features} and {label} dataframes and returns
    a TF Dataset. *)
Definition make_dataset (features : DataFrame) (label : option Series)
  : result Dataset :=
  let features := dict features in
  let inputs :=
    match label with
    | None => Features features
    | Some label => Labeled features label.*2
    end in
  from_tensor_slices inputs.

(** The two parts of an element. *)
Definition mapping (e : Element) : gmap string float :=
  match e with Record_ m | LabeledRecord m _ => m end.

Definition label_of (e : Element) : option float :=
  match e with Record_ _ => None | LabeledRecord _ y => Some y end.

(** A small generator for examples: the state is an integer, and an odd
    state reverses [range(n)]. *)
Definition parity_permutation (g : Z) (n : nat) : list nat :=
  if Z.odd g then reverse (seq 0 n) else seq 0 n.

Lemma parity_permutation_range g n : parity_permutation g n ≡ₚ seq 0 n.
Proof.
  unfold parity_permutation. destruct (Z.odd g); [|done].
  by rewrite reverse_Permutation.
Qed.

Definition parity_random : NumpyRandom := {|
  rng_state := Z;
  entropy := Z;
  seed_state := λ s, s;
  entropy_state := λ w, w;
  permutation := parity_permutation;
  permutation_range := parity_permutation_range
|}.

(** ** Example inputs *)

(** A line of the Illustris file with the given raw stellar mass, wind mass
    and halo mass, and zeros elsewhere. *)
Definition illustris_row (stellar wind halo : float) : list float :=
  <[53:=stellar]> (<[29:=wind]> (<[15:=halo]> (replicate 73 F64.zero))).

(** A line of the NYU file with the given raw stellar mass. *)
Definition nyu_row (stellar : float) : list float :=
  [F64.zero; stellar; F64.zero; F64.zero; F64.zero].

(** The rows of the worked examples: Illustris rows with raw stellar mass
    5 and wind mass 2 and 6; NYU rows with raw stellar mass 2e10, 5e-6 and
    2e12. *)
Definition worked_example_files : Files :=
  mkFiles
    [illustris_row (F64.of_Z 5) (F64.of_Z 2) (F64.of_Z 1);
     illustris_row (F64.of_Z 5) (F64.of_Z 6) (F64.of_Z 1)]
    [nyu_row (F64.of_Z 20000000000); nyu_row (F64.of_decimal 5 6);
     nyu_row (F64.of_Z 2000000000000)].

(** Three Illustris rows that survive both cuts. *)
Definition three_row_files : Files :=
  mkFiles (replicate 3 (illustris_row (F64.of_Z 5) (F64.of_Z 2) (F64.of_Z 1))) [].

(** The same Illustris rows, and one NYU row of raw stellar mass 1000. *)
Definition boundary_files : Files :=
  mkFiles (Illustris_V3_csv three_row_files) [nyu_row (F64.of_Z 1000)].

(** A table of two rows and two columns, and its labels. *)
Definition two_row_table : DataFrame :=
  mkDF ["B300"; "B1000"]%string
    [(4, [F64.of_Z 1; F64.of_Z 2]); (7, [F64.of_Z 3; F64.of_Z 4])].

Definition two_row_label : Series := [(4, F64.of_Z 5); (7, F64.of_Z 6)].

(** One Illustris row whose stellar mass field is empty. *)
Definition nan_files : Files :=
  mkFiles [illustris_row F64.nan (F64.of_Z 1) (F64.of_Z 1)] [].

(** * Properties *)

(** ** Comparisons of float64 *)

Lemma SFcompare_swap (x y : float) :
  SFcompare y x = CompOpp <$> SFcompare x y.
Proof.
  destruct x as [sx|sx| |sx mx ex], y as [sy|sy| |sy my ey]; simpl;
    try done; try (by destruct sx); try (by destruct sy);
    try (by destruct sx, sy).
  destruct sx, sy; simpl; try done; f_equal;
    rewrite (Z.compare_antisym ey ex);
    destruct (ey ?= ex)%Z eqn:He; simpl; try done;
    rewrite !Pos.compare_cont_spec; simpl;
    rewrite (Pos.compare_antisym mx my);
    by destruct (mx ?= my)%positive.
Qed.

(** Without NaN, [not (x < y)] is [y <= x]. *)
Lemma ltb_false_leb (x y : float) :
  F64.is_nan x = false → F64.is_nan y = false →
  F64.ltb x y = false → F64.leb y x = true.
Proof.
  unfold F64.ltb, F64.leb, SFltb, SFleb. rewrite (SFcompare_swap x y).
  destruct x as [sx|sx| |sx mx ex], y as [sy|sy| |sy my ey]; try done;
    simpl; intros _ _; by repeat case_match.
Qed.

(** Without NaN, [not (x >= y)] is [x < y]. *)
Lemma geb_false_ltb (x y : float) :
  F64.is_nan x = false → F64.is_nan y = false →
  F64.geb x y = false → F64.ltb x y = true.
Proof.
  unfold F64.geb, F64.ltb, F64.leb, SFltb, SFleb. rewrite (SFcompare_swap x y).
  destruct x as [sx|sx| |sx mx ex], y as [sy|sy| |sy my ey]; try done;
    simpl; intros _ _; by repeat case_match.
Qed.

Lemma ltb_nan_l (y : float) : F64.ltb F64.nan y = false.
Proof. done. Qed.

Lemma leb_nan_r (x : float) : F64.leb x F64.nan = false.
Proof. by destruct x. Qed.

(** ** The exception monad *)

Lemma bind_Ok {A B} (r : result A) (k : A → result B) (b : B) :
  r ≫= k = Ok b ↔ ∃ a, r = Ok a ∧ k a = Ok b.
Proof.
  destruct r as [a|e]; simpl; split.
  - by exists a.
  - by intros (a' & [= ->] & ?).
  - done.
  - by intros (a' & ? & ?).
Qed.

(** ** Positions in the two schemas *)

Lemma illustris_stellar :
  get_loc ILLUSTRIS_COLUMN_NAMES "SubhaloMassInRadType4" = Some 53.
Proof. reflexivity. Qed.

Lemma illustris_wind :
  get_loc ILLUSTRIS_COLUMN_NAMES "SubhaloWindMass" = Some 29.
Proof. reflexivity. Qed.

Lemma illustris_halo :
  get_loc ILLUSTRIS_COLUMN_NAMES "SubhaloMassInRad" = Some 15.
Proof. reflexivity. Qed.

Lemma nyu_stellar :
  get_loc NYU_COLUMN_NAMES "SubhaloMassInRadType4" = Some 1.
Proof. reflexivity. Qed.

Lemma illustris_names_NoDup : NoDup ILLUSTRIS_COLUMN_NAMES.
Proof. apply (bool_decide_unpack _). by vm_compute. Qed.

(** ** Rows, labels and cuts *)

Lemma read_csv_index names body :
  index (read_csv names body) = seq 0 (length body).
Proof.
  unfold index, read_csv; simpl. rewrite fmap_imap.
  transitivity (id <$> seq 0 (length body)); [|apply list_fmap_id].
  rewrite <-imap_seq_0. by apply imap_ext.
Qed.

Lemma read_csv_lookup names body i r :
  rows (read_csv names body) !! i = Some r ↔
  r.1 = i ∧ body !! i = Some r.2.
Proof.
  unfold read_csv; simpl. rewrite list_lookup_imap.
  destruct r as [j c], (body !! i) as [cells|]; simpl; [|by intuition].
  split; [by intros [= <- <-]|by intros [-> [= ->]]].
Qed.

Lemma read_csv_elem_of names body r :
  r ∈ rows (read_csv names body) ↔ body !! r.1 = Some r.2.
Proof.
  rewrite list_elem_of_lookup. split.
  - intros (i & (<- & ?)%read_csv_lookup). done.
  - intros ?. exists r.1. by apply read_csv_lookup.
Qed.

(** Rows with distinct labels are determined by their label. *)
Lemma NoDup_fst_inj {A B} (l : list (A * B)) (x y : A * B) :
  NoDup l.*1 → x ∈ l → y ∈ l → x.1 = y.1 → x = y.
Proof.
  induction l as [|z l IH]; [by intros _ ?%elem_of_nil|].
  rewrite fmap_cons, NoDup_cons, !elem_of_cons.
  intros [Hz Hl] [->|Hx] [->|Hy] Hxy; [done| | |by apply IH].
  - destruct Hz. rewrite Hxy. by apply list_elem_of_fmap_2.
  - destruct Hz. rewrite <-Hxy. by apply list_elem_of_fmap_2.
Qed.

Lemma filter_iff_elem_of {A} (P Q : A → Prop)
    `{!∀ x, Decision (P x), !∀ x, Decision (Q x)} (l : list A) :
  (∀ x, x ∈ l → P x ↔ Q x) → filter P l = filter Q l.
Proof.
  induction l as [|x l IH]; [done|]. intros Hiff.
  rewrite !filter_cons, IH by (intros; apply Hiff; by right).
  apply decide_ext, Hiff. by left.
Qed.

(** Dropping the labels of the rows that pass a test keeps the rows that
    fail it, when labels are distinct. *)
Lemma drop_mask_filter (Q : Row → Prop) `{!∀ r, Decision (Q r)} (l : list Row) :
  NoDup l.*1 →
  filter (λ r, r.1 ∉ (filter Q l).*1) l = filter (λ r, ¬ Q r) l.
Proof.
  intros Hl. apply filter_iff_elem_of. intros r Hr. split.
  - intros Hnot HQ. apply Hnot, list_elem_of_fmap_2, list_elem_of_filter. done.
  - intros HQ (r' & Heq & [HQ' Hr']%list_elem_of_filter)%list_elem_of_fmap.
    by rewrite (NoDup_fst_inj l r r') in HQ.
Qed.

(** Without the assumption, a kept row still fails the test. *)
Lemma drop_mask_elem_of (Q : Row → Prop) `{!∀ r, Decision (Q r)} (l : list Row) r :
  r ∈ filter (λ r, r.1 ∉ (filter Q l).*1) l → r ∈ l ∧ ¬ Q r.
Proof.
  intros [Hnot Hr]%list_elem_of_filter. split; [done|]. intros HQ.
  apply Hnot, list_elem_of_fmap_2, list_elem_of_filter. done.
Qed.

Lemma mask_index_Ok df name test p :
  get_loc (columns df) name = Some p →
  mask_index df name test =
    Ok (filter (λ r, test (cell p r) = true) (rows df)).*1.
Proof. unfold mask_index. by intros ->. Qed.

Lemma drop_Ok df labels :
  labels ⊆ index df →
  drop df labels =
    Ok (mkDF (columns df) (filter (λ r, r.1 ∉ labels) (rows df))).
Proof. unfold drop. intros ?. by rewrite decide_True. Qed.

Lemma drop_inv df labels df' :
  drop df labels = Ok df' →
  columns df' = columns df ∧
  rows df' = filter (λ r, r.1 ∉ labels) (rows df).
Proof. unfold drop. case_decide; [|done]. by intros [= <-]. Qed.

(** One cut of [load_data]: [df.drop(df[test(df.name)].index)]. *)
Lemma cut_Ok df name test p :
  get_loc (columns df) name = Some p →
  NoDup (index df) →
  mask_index df name test ≫= drop df =
    Ok (mkDF (columns df) (filter (λ r, test (cell p r) ≠ true) (rows df))).
Proof.
  intros Hp Hnd. rewrite (mask_index_Ok _ _ _ p Hp). simpl.
  rewrite drop_Ok.
  - by rewrite (drop_mask_filter (λ r, test (cell p r) = true)).
  - intros i (r & -> & [_ ?]%list_elem_of_filter)%list_elem_of_fmap.
    by apply list_elem_of_fmap_2.
Qed.

Lemma filter_index_NoDup (P : Row → Prop) `{!∀ r, Decision (P r)} (l : list Row) :
  NoDup l.*1 → NoDup (filter P l).*1.
Proof.
  intros Hl. eapply sublist_NoDup; [exact Hl|].
  apply fmap_sublist, sublist_filter.
Qed.

Lemma bind_Ok_l {A B} (a : A) (k : A → result B) : Ok a ≫= k = k a.
Proof. done. Qed.

Lemma cut_bind {B} df name test p (k : DataFrame → result B) :
  get_loc (columns df) name = Some p →
  NoDup (index df) →
  (mask_index df name test ≫= λ labels, drop df labels ≫= k) =
    k (mkDF (columns df) (filter (λ r, test (cell p r) ≠ true) (rows df))).
Proof.
  intros Hp Hnd. pose proof (cut_Ok df name test p Hp Hnd) as Hcut.
  destruct (mask_index df name test) as [labels|]; [|done].
  simpl in *. by rewrite Hcut.
Qed.

Lemma set_cell_index (f : Row → float) p (l : list Row) :
  (map (λ r, set_cell p (f r) r) l).*1 = l.*1.
Proof. rewrite <-list_fmap_compose. by apply list_fmap_ext. Qed.

(** ** The Illustris cuts *)

(** The corrected row: the wind mass is subtracted from the stellar mass. *)
Definition corrected (r : Row) : Row :=
  set_cell 53 (F64.sub (cell 53 r) (cell 29 r)) r.

(** A corrected row survives both cuts. *)
Definition survives (r : Row) : Prop :=
  F64.ltb (cell 53 r) F64.zero ≠ true ∧
  F64.ltb (cell 15 r) (F64.of_decimal 1 1) ≠ true.

#[global] Instance survives_dec r : Decision (survives r).
Proof. unfold survives. apply _. Defined.

Lemma isub_column_read_csv body :
  isub_column (read_csv ILLUSTRIS_COLUMN_NAMES body)
    "SubhaloMassInRadType4" "SubhaloWindMass" =
  Ok (mkDF ILLUSTRIS_COLUMN_NAMES
        (corrected <$> rows (read_csv ILLUSTRIS_COLUMN_NAMES body))).
Proof. done. Qed.

Lemma read_csv_NoDup names body : NoDup (index (read_csv names body)).
Proof. rewrite read_csv_index. apply NoDup_seq. Qed.

Lemma iData_halo_cut_read_csv body :
  iData_halo_cut (read_csv ILLUSTRIS_COLUMN_NAMES body) =
    Ok (mkDF ILLUSTRIS_COLUMN_NAMES
          (filter survives
             (corrected <$> rows (read_csv ILLUSTRIS_COLUMN_NAMES body)))).
Proof.
  unfold iData_halo_cut. rewrite isub_column_read_csv, bind_Ok_l.
  rewrite (cut_bind _ _ _ 53); [|done|].
  2:{ unfold index, corrected; simpl. rewrite set_cell_index.
      apply (read_csv_NoDup ILLUSTRIS_COLUMN_NAMES). }
  rewrite (cut_Ok _ _ _ 15); [|done|].
  2:{ unfold index, corrected; simpl. apply filter_index_NoDup.
      rewrite set_cell_index. apply (read_csv_NoDup ILLUSTRIS_COLUMN_NAMES). }
  simpl. f_equal. f_equal. rewrite list_filter_filter.
  apply list_filter_iff. intros r. unfold survives. tauto.
Qed.

(** ** The NYU cuts *)

(** The converted row: the stellar mass in units of 10^10. *)
Definition converted (r : Row) : Row :=
  set_cell 1 (F64.div (cell 1 r) (F64.of_Z (10 ^ 10))) r.

(** A converted row is kept by both cuts. *)
Definition in_support (r : Row) : Prop :=
  F64.ltb (cell 1 r) (F64.of_decimal 1 7) ≠ true ∧
  F64.geb (cell 1 r) (F64.of_Z 150) ≠ true.

#[global] Instance in_support_dec r : Decision (in_support r).
Proof. unfold in_support. apply _. Defined.

Lemma idiv_column_read_csv body :
  idiv_column (read_csv NYU_COLUMN_NAMES body)
    "SubhaloMassInRadType4" (F64.of_Z (10 ^ 10)) =
  Ok (mkDF NYU_COLUMN_NAMES
        (converted <$> rows (read_csv NYU_COLUMN_NAMES body))).
Proof. done. Qed.

Lemma nData_stell_top_cut_read_csv body :
  nData_stell_top_cut (read_csv NYU_COLUMN_NAMES body) =
    Ok (mkDF NYU_COLUMN_NAMES
          (filter in_support
             (converted <$> rows (read_csv NYU_COLUMN_NAMES body)))).
Proof.
  unfold nData_stell_top_cut. rewrite idiv_column_read_csv, bind_Ok_l.
  rewrite (cut_bind _ _ _ 1); [|done|].
  2:{ unfold index, converted; simpl. rewrite set_cell_index.
      apply (read_csv_NoDup NYU_COLUMN_NAMES). }
  rewrite (cut_Ok _ _ _ 1); [|done|].
  2:{ unfold index, converted; simpl. apply filter_index_NoDup.
      rewrite set_cell_index. apply (read_csv_NoDup NYU_COLUMN_NAMES). }
  simpl. f_equal. f_equal. rewrite list_filter_filter.
  apply list_filter_iff. intros r. unfold in_support. tauto.
Qed.

(** ** Filters that keep nothing or everything *)

Lemma filter_none {A} (P : A → Prop) `{!∀ x, Decision (P x)} (l : list A) :
  (∀ x, x ∈ l → ¬ P x) → filter P l = [].
Proof.
  induction l as [|x l IH]; [done|]. intros Hl.
  rewrite filter_cons_False by (apply Hl; by left).
  apply IH. intros; apply Hl; by right.
Qed.

Lemma filter_all {A} (P : A → Prop) `{!∀ x, Decision (P x)} (l : list A) :
  (∀ x, x ∈ l → P x) → filter P l = l.
Proof.
  induction l as [|x l IH]; [done|]. intros Hl.
  rewrite filter_cons_True by (apply Hl; by left).
  f_equal. apply IH. intros; apply Hl; by right.
Qed.

(** ** Taking rows by position *)

#[global] Instance Row_inhabited : Inhabited Row := populate (0, []).

Lemma take_rows_inv df locs df' :
  take_rows df locs = Ok df' →
  columns df' = columns df ∧
  Forall2 (λ p r, rows df !! p = Some r) locs (rows df').
Proof.
  unfold take_rows. destruct (mapM _ locs) as [rs|] eqn:Hrs; [|done].
  simpl. intros [= <-]. split; [done|]. by apply mapM_Some in Hrs.
Qed.

Lemma positions_rows (l : list Row) (locs : list nat) (rs : list Row) :
  Forall2 (λ p r, l !! p = Some r) locs rs → rs = (l !!!.) <$> locs.
Proof.
  induction 1 as [|p r locs rs Hp _ IH]; [done|].
  rewrite fmap_cons, <-IH. f_equal. symmetry.
  by apply list_lookup_total_correct.
Qed.

Lemma all_positions_rows (l : list Row) : (l !!!.) <$> seq 0 (length l) = l.
Proof.
  apply list_eq. intros i. rewrite list_lookup_fmap.
  destruct (decide (i < length l)) as [Hi|Hi].
  - rewrite lookup_seq_lt by done. simpl.
    by rewrite list_lookup_lookup_total by (by apply lookup_lt_is_Some).
  - rewrite lookup_seq_ge, lookup_ge_None_2 by lia. done.
Qed.

Lemma take_rows_Ok df locs :
  (∀ p, p ∈ locs → p < length (rows df)) →
  take_rows df locs = Ok (mkDF (columns df) ((rows df !!!.) <$> locs)).
Proof.
  intros Hlocs. unfold take_rows.
  rewrite (proj2 (mapM_Some _ _ ((rows df !!!.) <$> locs))); [done|].
  apply Forall2_fmap_r, Forall_Forall2_diag, Forall_forall.
  intros p Hp. by apply list_lookup_lookup_total, lookup_lt_is_Some, Hlocs.
Qed.

(** ** The random split *)

Section Split.
Context {R : NumpyRandom}.

Lemma permutation_lt g n p : p ∈ permutation g n → p < n.
Proof. rewrite (permutation_range g n), elem_of_seq. lia. Qed.


Lemma choice_inv g n size locs :
  choice g n size = Ok locs →
  (0 ≤ size ≤ Z.of_nat n)%Z ∧ locs = take (Z.to_nat size) (permutation g n).
Proof.
  unfold choice.
  destruct (Z.ltb_spec size 0); [done|].
  destruct (Z.ltb_spec (Z.of_nat n) size); [done|].
  intros [= <-]. split; [lia|done].
Qed.

(** What [sample] returns: the rows at the first [k] positions of the
    generator's permutation, in that order. *)
Lemma sample_inv df frac g tr :
  sample df frac g = Ok tr →
  ∃ k, sample_size frac (length (rows df)) = Ok (Z.of_nat k) ∧
       k ≤ length (rows df) ∧
       tr = mkDF (columns df)
              ((rows df !!!.) <$> take k (permutation g (length (rows df)))).
Proof.
  unfold sample. intros (size & Hsize & (locs & Hlocs & Htake)%bind_Ok)%bind_Ok.
  apply choice_inv in Hlocs as [Hrange ->].
  exists (Z.to_nat size). rewrite Z2Nat.id by lia. split; [done|].
  split; [lia|].
  rewrite take_rows_Ok in Htake; [by injection Htake|].
  intros p Hp%subseteq_take. by eapply permutation_lt.
Qed.

(** The sampled rows and the remaining positions' rows make up the
    table. *)
Lemma sampled_and_rest (l : list Row) g k :
  ((l !!!.) <$> take k (permutation g (length l))) ++
  ((l !!!.) <$> skipn k (permutation g (length l))) ≡ₚ l.
Proof.
  rewrite <-fmap_app, take_drop, (permutation_range g (length l)).
  by rewrite all_positions_rows.
Qed.

Lemma sampled_elem_of (l : list Row) g k r :
  r ∈ (l !!!.) <$> take k (permutation g (length l)) → r ∈ l.
Proof.
  intros Hr. rewrite <-(sampled_and_rest l g k). apply elem_of_app. by left.
Qed.

(** Dropping the sampled labels leaves the rows of the other
    positions. *)
Lemma drop_sampled (l : list Row) g k :
  NoDup l.*1 →
  filter (λ r, r.1 ∉ ((l !!!.) <$> take k (permutation g (length l))).*1) l
  ≡ₚ (l !!!.) <$> skipn k (permutation g (length l)).
Proof.
  intros Hl.
  set (tr := (l !!!.) <$> take k (permutation g (length l))).
  set (rest := (l !!!.) <$> skipn k (permutation g (length l))).
  assert (tr ++ rest ≡ₚ l) as Hperm by apply sampled_and_rest.
  rewrite <-Hperm, fmap_app in Hl. apply NoDup_app in Hl as (_ & Hdisj & _).
  transitivity (filter (λ r, r.1 ∉ tr.*1) (tr ++ rest)).
  { by rewrite Hperm. }
  rewrite filter_app, filter_none, filter_all; [done| |].
  - intros r Hr Hin. apply (Hdisj r.1); [done|]. by apply list_elem_of_fmap_2.
  - intros r Hr Hnot. by apply Hnot, list_elem_of_fmap_2.
Qed.

(** What [split] returns. *)
Lemma split_inv os df frac seed tr te :
  split os df frac seed = Ok (tr, te) →
  valid_seed seed = true ∧
  ∃ k, sample_size frac (length (rows df)) = Ok (Z.of_nat k) ∧
       k ≤ length (rows df) ∧
       tr = mkDF (columns df)
              ((rows df !!!.) <$>
                 take k (permutation (split_state os seed) (length (rows df)))) ∧
       te = mkDF (columns df) (filter (λ r, r.1 ∉ index tr) (rows df)).
Proof.
  unfold split. destruct (valid_seed seed); [|done].
  intros (tr' & Htr & (te' & Hte & [= -> ->])%bind_Ok)%bind_Ok.
  split; [done|]. apply sample_inv in Htr as (k & Hk & Hle & ->).
  exists k. repeat split; try done.
  apply drop_inv in Hte as [Hc Hr]. destruct te as [c r]; simpl in *.
  by rewrite Hc, Hr.
Qed.

(** Train and Test partition the table. *)
Lemma split_partition os df frac seed tr te :
  NoDup (index df) →
  split os df frac seed = Ok (tr, te) →
  rows tr ++ rows te ≡ₚ rows df.
Proof.
  intros Hnd (_ & k & _ & _ & -> & ->)%split_inv. simpl.
  unfold index; simpl. rewrite drop_sampled by done.
  apply sampled_and_rest.
Qed.

Lemma split_columns os df frac seed tr te :
  split os df frac seed = Ok (tr, te) →
  columns tr = columns df ∧ columns te = columns df.
Proof. by intros (_ & k & _ & _ & -> & ->)%split_inv. Qed.

End Split.

(** ** Popping a column *)

Lemma get_loc_Some cols name p :
  get_loc cols name = Some p → cols !! p = Some name.
Proof.
  unfold get_loc. destruct (list_find _ cols) as [[i x]|] eqn:Hfind; [|done].
  apply list_find_Some in Hfind as (Hi & -> & _). by intros [= <-].
Qed.

Lemma delete_not_elem_of {A} (l : list A) p x :
  NoDup l → l !! p = Some x → x ∉ delete p l.
Proof.
  intros Hl Hp. rewrite <-(take_drop_middle l p x Hp) in Hl.
  rewrite delete_take_drop.
  apply NoDup_app in Hl as (_ & Hdisj & [Hx _]%NoDup_cons).
  intros [Hin|Hin]%elem_of_app; [|done].
  apply (Hdisj x Hin). by left.
Qed.

Lemma pop_inv df name out :
  pop df name = Ok out →
  ∃ p, get_loc (columns df) name = Some p ∧
       out.1 = mkDF (delete p (columns df))
                 (map (λ r, (r.1, delete p r.2)) (rows df)) ∧
       out.2 = map (λ r, (r.1, cell p r)) (rows df).
Proof.
  unfold pop. destruct (get_loc _ name) as [p|]; [|done].
  simpl. intros [= <-]. by exists p.
Qed.

(** The value of a named column in a row, for a list of column names. *)
Definition value (cols : list string) (name : string) (r : Row) : float :=
  match get_loc cols name with
  | Some p => cell p r
  | None => F64.nan
  end.

(** A row of the Illustris table and a row of the NYU table, by column
    name. *)
Definition illustris : string → Row → float := value ILLUSTRIS_COLUMN_NAMES.
Definition nyu : string → Row → float := value NYU_COLUMN_NAMES.

(** ** The stages of [load_data] *)

Section Stages.
Context {R : NumpyRandom}.

(** The intermediate tables of a run of [load_data]: the filtered
    Illustris table, its Train and Test parts before the label is
    popped, and what is returned. *)
Definition load_data_stages (os : entropy) (files : Files)
    (label_name : option string) (train_fraction : option float)
    (seed : option Z) (halo_cut train_features test_features : DataFrame)
    (train test : DataFrame * Series) (NYU_features : DataFrame) : Prop :=
  iData_halo_cut (raw_dataframe files).1 = Ok halo_cut ∧
  nData_stell_top_cut (raw_dataframe files).2 = Ok NYU_features ∧
  split os halo_cut (default default_train_fraction train_fraction) seed
    = Ok (train_features, test_features) ∧
  pop train_features (default default_label_name label_name) = Ok train ∧
  pop test_features (default default_label_name label_name) = Ok test.

Lemma load_data_Ok os files label_name train_fraction seed train test nyu :
  load_data os files label_name train_fraction seed = Ok (train, test, nyu) ↔
  ∃ halo_cut tr te,
    load_data_stages os files label_name train_fraction seed
      halo_cut tr te train test nyu.
Proof.
  unfold load_data, load_data_stages. simpl. split.
  - intros (hc & Hhc & (ny & Hny & ([tr te] & Hsplit & (tn & Htn &
      (ts & Hts & [= -> -> ->])%bind_Ok)%bind_Ok)%bind_Ok)%bind_Ok)%bind_Ok.
    by exists hc, tr, te.
  - intros (hc & tr & te & -> & -> & Hsplit & Htr & Hte). simpl.
    rewrite Hsplit. simpl. by rewrite Htr, Hte.
Qed.

Lemma halo_cut_NoDup files halo_cut :
  iData_halo_cut (raw_dataframe files).1 = Ok halo_cut →
  NoDup (index halo_cut).
Proof.
  simpl. rewrite iData_halo_cut_read_csv. intros [= <-].
  unfold index; simpl. apply filter_index_NoDup.
  unfold corrected. rewrite set_cell_index.
  apply (read_csv_NoDup ILLUSTRIS_COLUMN_NAMES).
Qed.

(** Every row of Train and of Test is a row of the filtered table. *)
Lemma split_elem_of os df frac seed tr te r :
  split os df frac seed = Ok (tr, te) →
  r ∈ rows tr ∨ r ∈ rows te → r ∈ rows df.
Proof.
  intros (_ & k & _ & _ & -> & ->)%split_inv. simpl. intros [Hr|Hr].
  - by eapply sampled_elem_of.
  - by apply list_elem_of_filter in Hr as [_ ?].
Qed.

End Stages.

(** ** Cells of corrected and converted rows *)

Lemma cell_set_cell_eq p (f : float → float) (r : Row) :
  f F64.nan = F64.nan →
  cell p (set_cell p (f (cell p r)) r) = f (cell p r).
Proof.
  intros Hnan. unfold cell, set_cell; simpl.
  destruct (decide (p < length r.2)) as [Hp|Hp].
  - by rewrite list_lookup_insert_eq.
  - rewrite list_insert_ge by lia.
    rewrite (lookup_ge_None_2 r.2 p) by lia. by simpl.
Qed.

Lemma cell_set_cell_ne p q v (r : Row) :
  p ≠ q → cell q (set_cell p v r) = cell q r.
Proof. intros Hpq. unfold cell, set_cell; simpl. by rewrite list_lookup_insert_ne. Qed.

Lemma corrected_stellar r :
  illustris "SubhaloMassInRadType4" (corrected r) =
  F64.sub (illustris "SubhaloMassInRadType4" r) (illustris "SubhaloWindMass" r).
Proof.
  unfold illustris, value. rewrite illustris_stellar, illustris_wind.
  unfold corrected.
  by rewrite (cell_set_cell_eq 53 (λ x, F64.sub x (cell 29 r))).
Qed.

Lemma corrected_halo r :
  illustris "SubhaloMassInRad" (corrected r) = illustris "SubhaloMassInRad" r.
Proof.
  unfold illustris, value. rewrite illustris_halo.
  unfold corrected. by rewrite cell_set_cell_ne.
Qed.

Lemma converted_stellar r :
  nyu "SubhaloMassInRadType4" (converted r) =
  F64.div (nyu "SubhaloMassInRadType4" r) (F64.of_Z (10 ^ 10)).
Proof.
  unfold nyu, value. rewrite nyu_stellar. unfold converted.
  by rewrite (cell_set_cell_eq 1 (λ x, F64.div x (F64.of_Z (10 ^ 10)))).
Qed.

Lemma survives_illustris r :
  survives r ↔
  F64.ltb (illustris "SubhaloMassInRadType4" r) F64.zero = false ∧
  F64.ltb (illustris "SubhaloMassInRad" r) (F64.of_decimal 1 1) = false.
Proof.
  unfold survives, illustris, value. rewrite illustris_stellar, illustris_halo.
  by rewrite !not_true_iff_false.
Qed.

Lemma in_support_nyu r :
  in_support r ↔
  F64.ltb (nyu "SubhaloMassInRadType4" r) (F64.of_decimal 1 7) = false ∧
  F64.geb (nyu "SubhaloMassInRadType4" r) (F64.of_Z 150) = false.
Proof.
  unfold in_support, nyu, value. rewrite nyu_stellar.
  by rewrite !not_true_iff_false.
Qed.

(** The rows of the filtered Illustris table: the corrected rows of the
    file that survive both cuts. *)
Lemma halo_cut_rows body halo_cut r :
  iData_halo_cut (read_csv ILLUSTRIS_COLUMN_NAMES body) = Ok halo_cut →
  r ∈ rows halo_cut ↔
  ∃ cells, body !! r.1 = Some cells ∧ r = corrected (r.1, cells) ∧ survives r.
Proof.
  rewrite iData_halo_cut_read_csv. intros [= <-]. simpl.
  rewrite list_elem_of_filter, list_elem_of_fmap. split.
  - intros [Hs (raw & -> & Hraw)].
    apply (read_csv_elem_of ILLUSTRIS_COLUMN_NAMES) in Hraw.
    destruct raw as [i cells]; simpl in *. by exists cells.
  - intros (cells & Hcells & Hr & Hs). split; [done|].
    exists (r.1, cells). split; [done|].
    by apply (read_csv_elem_of ILLUSTRIS_COLUMN_NAMES).
Qed.

(** The rows of the NYU table that is returned. *)
Lemma NYU_features_rows body NYU_features r :
  nData_stell_top_cut (read_csv NYU_COLUMN_NAMES body) = Ok NYU_features →
  r ∈ rows NYU_features ↔
  ∃ cells, body !! r.1 = Some cells ∧ r = converted (r.1, cells) ∧ in_support r.
Proof.
  rewrite nData_stell_top_cut_read_csv. intros [= <-]. simpl.
  rewrite list_elem_of_filter, list_elem_of_fmap. split.
  - intros [Hs (raw & -> & Hraw)].
    apply (read_csv_elem_of NYU_COLUMN_NAMES) in Hraw.
    destruct raw as [i cells]; simpl in *. by exists cells.
  - intros (cells & Hcells & Hr & Hs). split; [done|].
    exists (r.1, cells). split; [done|].
    by apply (read_csv_elem_of NYU_COLUMN_NAMES).
Qed.

Lemma halo_cut_index body halo_cut i cells :
  iData_halo_cut (read_csv ILLUSTRIS_COLUMN_NAMES body) = Ok halo_cut →
  body !! i = Some cells →
  i ∈ index halo_cut ↔ survives (corrected (i, cells)).
Proof.
  intros Hhc Hcells. unfold index. rewrite list_elem_of_fmap. split.
  - intros (r & -> & (cells' & Hcells' & Hr & Hs)%(halo_cut_rows _ _ _ Hhc)).
    rewrite Hcells in Hcells'. injection Hcells' as <-. by rewrite <-Hr.
  - intros Hs. exists (corrected (i, cells)). split; [done|].
    apply (halo_cut_rows _ _ _ Hhc). by exists cells.
Qed.

Lemma halo_cut_columns body halo_cut :
  iData_halo_cut (read_csv ILLUSTRIS_COLUMN_NAMES body) = Ok halo_cut →
  columns halo_cut = ILLUSTRIS_COLUMN_NAMES.
Proof. rewrite iData_halo_cut_read_csv. by intros [= <-]. Qed.

Section SplitMembership.
Context {R : NumpyRandom}.

Lemma split_rows_iff os df frac seed tr te r :
  NoDup (index df) →
  split os df frac seed = Ok (tr, te) →
  (r ∈ rows tr ∨ r ∈ rows te) ↔ r ∈ rows df.
Proof.
  intros Hnd Hsplit.
  by rewrite <-(split_partition _ _ _ _ _ _ Hnd Hsplit), elem_of_app.
Qed.

Lemma split_index os df frac seed tr te :
  NoDup (index df) →
  split os df frac seed = Ok (tr, te) →
  index tr ++ index te ≡ₚ index df.
Proof.
  intros Hnd Hsplit. unfold index.
  by rewrite <-(split_partition _ _ _ _ _ _ Hnd Hsplit), fmap_app.
Qed.

Lemma split_index_iff os df frac seed tr te i :
  NoDup (index df) →
  split os df frac seed = Ok (tr, te) →
  (i ∈ index tr ∨ i ∈ index te) ↔ i ∈ index df.
Proof.
  intros Hnd Hsplit.
  by rewrite <-(split_index _ _ _ _ _ _ Hnd Hsplit), elem_of_app.
Qed.

End SplitMembership.

(** * The claims *)

(** ** C6: the sizes of the two schemas *)

(** C6, as stated, fails: the Illustris schema does not have 71 names. *)
Lemma illustris_schema_is_not_71 :
  ¬ (length ILLUSTRIS_COLUMN_NAMES = 71 ∧ length NYU_COLUMN_NAMES = 5).
Proof. intros [H71 _]. vm_compute in H71. discriminate H71. Qed.

(** C6 (amended): the Illustris schema has exactly 73 names, the row
    index column [Pre_Drop_Index] followed by 72 columns of physical
    quantities, all distinct, and the NYU schema has exactly 5 names. *)
Theorem schema_sizes :
  length ILLUSTRIS_COLUMN_NAMES = 73 ∧
  head ILLUSTRIS_COLUMN_NAMES = Some "Pre_Drop_Index"%string ∧
  length (tail ILLUSTRIS_COLUMN_NAMES) = 72 ∧
  NoDup ILLUSTRIS_COLUMN_NAMES ∧
  length NYU_COLUMN_NAMES = 5.
Proof.
  split; [reflexivity|]. split; [reflexivity|]. split; [reflexivity|].
  split; [apply illustris_names_NoDup|reflexivity].
Qed.

(** ** C1: the rows of Train and Test pass both cuts *)

Lemma of_decimal_1_1_not_nan : F64.is_nan (F64.of_decimal 1 1) = false.
Proof. reflexivity. Qed.

Lemma five_minus_two_survives :
  F64.ltb (F64.sub (F64.of_Z 5) (F64.of_Z 2)) F64.zero = false.
Proof. reflexivity. Qed.

Lemma five_minus_six_is_cut :
  F64.ltb (F64.sub (F64.of_Z 5) (F64.of_Z 6)) F64.zero = true.
Proof. reflexivity. Qed.

(** C1, as stated, fails on a row whose corrected stellar mass is NaN (an
    empty field of the file is read as NaN): [NaN < 0] is false, so the row
    is not dropped, and [NaN >= 0] is false too. *)
Lemma nan_stellar_mass_is_kept :
  ∃ train test NYU_features r,
    load_data (R := parity_random) 0%Z nan_files None None None
      = Ok (train, test, NYU_features) ∧
    r ∈ rows train.1 ∧
    F64.geb (value (columns train.1) "SubhaloMassInRadType4" r) F64.zero = false.
Proof.
  eexists _, _, _, _. split; [vm_compute; reflexivity|].
  split; [simpl; apply list_elem_of_here|]. vm_compute. reflexivity.
Qed.

Section FilteredRows.
Context {R : NumpyRandom}.

(** C1 (amended): every row of the Train and Test parts of the filtered
    Illustris table has a corrected stellar mass (raw SubhaloMassInRadType4
    minus SubhaloWindMass) that is not below 0 and a halo mass
    SubhaloMassInRad that is not below 0.1; so they are >= 0 and >= 0.1
    whenever they are not NaN.  A row with raw stellar mass 5 and wind mass
    2 whose halo mass is not below 0.1 is kept, and a row with raw stellar
    mass 5 and wind mass 6 is dropped. *)
Theorem filtered_rows_pass_both_cuts os files label_name train_fraction seed
    train test NYU_features :
  load_data os files label_name train_fraction seed
    = Ok (train, test, NYU_features) →
  ∃ halo_cut train_features test_features,
    load_data_stages os files label_name train_fraction seed
      halo_cut train_features test_features train test NYU_features ∧
    columns train_features = ILLUSTRIS_COLUMN_NAMES ∧
    columns test_features = ILLUSTRIS_COLUMN_NAMES ∧
    (∀ r, r ∈ rows train_features ∨ r ∈ rows test_features →
       ∃ cells, Illustris_V3_csv files !! r.1 = Some cells ∧
         illustris "SubhaloMassInRadType4" r
           = F64.sub (illustris "SubhaloMassInRadType4" (r.1, cells))
               (illustris "SubhaloWindMass" (r.1, cells)) ∧
         illustris "SubhaloMassInRad" r
           = illustris "SubhaloMassInRad" (r.1, cells) ∧
         F64.ltb (illustris "SubhaloMassInRadType4" r) F64.zero = false ∧
         F64.ltb (illustris "SubhaloMassInRad" r) (F64.of_decimal 1 1) = false ∧
         (F64.is_nan (illustris "SubhaloMassInRadType4" r) = false →
          F64.geb (illustris "SubhaloMassInRadType4" r) F64.zero = true) ∧
         (F64.is_nan (illustris "SubhaloMassInRad" r) = false →
          F64.geb (illustris "SubhaloMassInRad" r) (F64.of_decimal 1 1) = true)) ∧
    (∀ i cells, Illustris_V3_csv files !! i = Some cells →
       illustris "SubhaloMassInRadType4" (i, cells) = F64.of_Z 5 →
       illustris "SubhaloWindMass" (i, cells) = F64.of_Z 2 →
       F64.ltb (illustris "SubhaloMassInRad" (i, cells)) (F64.of_decimal 1 1)
         = false →
       i ∈ index train_features ∨ i ∈ index test_features) ∧
    (∀ i cells, Illustris_V3_csv files !! i = Some cells →
       illustris "SubhaloMassInRadType4" (i, cells) = F64.of_Z 5 →
       illustris "SubhaloWindMass" (i, cells) = F64.of_Z 6 →
       (i ∉ index train_features) ∧ (i ∉ index test_features)).
Proof.
  intros (hc & tr & te & Hst)%load_data_Ok. exists hc, tr, te.
  split; [done|]. destruct Hst as (Hhc & _ & Hsplit & _ & _).
  pose proof (halo_cut_NoDup _ _ Hhc) as Hnd. simpl in Hhc.
  destruct (split_columns _ _ _ _ _ _ Hsplit) as [Htr Hte].
  rewrite (halo_cut_columns _ _ Hhc) in Htr, Hte.
  split; [done|]. split; [done|]. split; [|split].
  - intros r Hr. apply (split_rows_iff _ _ _ _ _ _ _ Hnd Hsplit) in Hr.
    apply (halo_cut_rows _ _ _ Hhc) in Hr as (cells & Hcells & Hr & Hs).
    exists cells. split; [done|].
    apply survives_illustris in Hs as [Hstellar Hhalo].
    destruct r as [i c]; simpl in *.
    rewrite Hr in Hstellar, Hhalo |- *. clear Hr.
    rewrite corrected_stellar in Hstellar |- *.
    rewrite corrected_halo in Hhalo |- *.
    repeat split; try done.
    + intros Hnan. by apply ltb_false_leb.
    + intros Hnan. by apply ltb_false_leb.
  - intros i cells Hcells H5 H2 Hhalo.
    apply (split_index_iff _ _ _ _ _ _ _ Hnd Hsplit).
    apply (halo_cut_index _ _ _ _ Hhc Hcells), survives_illustris.
    rewrite corrected_stellar, corrected_halo, H5, H2. done.
  - intros i cells Hcells H5 H6.
    assert (i ∉ index hc) as Hi.
    { rewrite (halo_cut_index _ _ _ _ Hhc Hcells), survives_illustris.
      rewrite corrected_stellar, H5, H6. by intros [? _]. }
    split; intros Hin; apply Hi;
      apply (split_index_iff _ _ _ _ _ _ _ Hnd Hsplit); auto.
Qed.

End FilteredRows.

(** A run on the two rows of the worked example: the first is kept, the
    second dropped. *)
Lemma filtered_rows_pass_both_cuts_witness :
  ∃ train_features test_features,
    (0 ∈ index train_features ∨ 0 ∈ index test_features) ∧
    (1 ∉ index train_features) ∧ (1 ∉ index test_features).
Proof.
  edestruct (filtered_rows_pass_both_cuts (R := parity_random) 0%Z
               worked_example_files None None (Some 7%Z))
    as (hc & tr & te & _ & _ & _ & _ & Hkept & Hdropped);
    [vm_compute; reflexivity|].
  exists tr, te. split.
  - apply (Hkept 0 (illustris_row (F64.of_Z 5) (F64.of_Z 2) (F64.of_Z 1)));
      reflexivity.
  - apply (Hdropped 1 (illustris_row (F64.of_Z 5) (F64.of_Z 6) (F64.of_Z 1)));
      reflexivity.
Defined.

(** ** C2: Train and Test partition the filtered table *)

Lemma pop_index df name out :
  pop df name = Ok out → index out.1 = index df ∧ out.2.*1 = index df.
Proof.
  intros (p & _ & -> & ->)%pop_inv. unfold index; simpl.
  split; rewrite <-list_fmap_compose; by apply list_fmap_ext.
Qed.

Section Partition.
Context {R : NumpyRandom}.

(** C2: for every seed, given or not, the rows of Train and of Test are
    the rows of the filtered Illustris table, each row in exactly one of
    the two; the tables and label sequences that are returned carry the
    same row labels. *)
Theorem train_test_partition os files label_name train_fraction seed
    train test NYU_features :
  load_data os files label_name train_fraction seed
    = Ok (train, test, NYU_features) →
  ∃ halo_cut train_features test_features,
    load_data_stages os files label_name train_fraction seed
      halo_cut train_features test_features train test NYU_features ∧
    rows train_features ++ rows test_features ≡ₚ rows halo_cut ∧
    NoDup (index train_features ++ index test_features) ∧
    (∀ i, i ∈ index train_features → i ∉ index test_features) ∧
    (∀ r, r ∈ rows halo_cut ↔
          (r ∈ rows train_features ∨ r ∈ rows test_features)) ∧
    index train.1 = index train_features ∧
    train.2.*1 = index train_features ∧
    index test.1 = index test_features ∧
    test.2.*1 = index test_features.
Proof.
  intros (hc & tr & te & Hst)%load_data_Ok. exists hc, tr, te.
  split; [done|]. destruct Hst as (Hhc & _ & Hsplit & Htrain & Htest).
  pose proof (halo_cut_NoDup _ _ Hhc) as Hnd.
  pose proof (split_index _ _ _ _ _ _ Hnd Hsplit) as Hindex.
  assert (NoDup (index tr ++ index te)) as Hnd' by by rewrite Hindex.
  split; [exact (split_partition _ _ _ _ _ _ Hnd Hsplit)|]. split; [done|].
  split; [by apply NoDup_app in Hnd' as (_ & ? & _)|].
  split; [intros r; symmetry; apply (split_rows_iff _ _ _ _ _ _ _ Hnd Hsplit)|].
  destruct (pop_index _ _ _ Htrain), (pop_index _ _ _ Htest). done.
Qed.

(** ** C4: a seeded split is reproducible *)


(** ** C10: the order of the rows of Test and of Train *)


End Partition.

(** A run of the pipeline on three rows, with seed 7. *)
Lemma train_test_partition_witness :
  ∃ train_features test_features,
    NoDup (index train_features ++ index test_features) ∧
    length (rows train_features ++ rows test_features) = 3.
Proof.
  edestruct (train_test_partition (R := parity_random) 0%Z three_row_files
               None None (Some 7%Z))
    as (hc & tr & te & (Hhc & _) & Hperm & Hnd & _);
    [vm_compute; reflexivity|].
  exists tr, te. split; [done|]. rewrite Hperm.
  vm_compute in Hhc. by injection Hhc as <-.
Defined.


(** With an odd seed the example generator reverses [range(3)]: Train
    holds rows 2 and 1 in that order, which is not the order of the
    table, and Test holds row 0. *)
Lemma train_order_can_differ :
  ∃ train test NYU_features,
    load_data (R := parity_random) 0%Z three_row_files None None (Some 7%Z)
      = Ok (train, test, NYU_features) ∧
    index train.1 = [2; 1] ∧ index test.1 = [0].
Proof. eexists _, _, _. split; [vm_compute; reflexivity|]. done. Qed.

(** Without a seed the split depends on the entropy the generator is
    seeded with: two runs can assign different rows to Train. *)
Lemma unseeded_split_depends_on_entropy :
  ∃ train1 test1 train2 test2 NYU_features,
    load_data (R := parity_random) 0%Z three_row_files None None None
      = Ok (train1, test1, NYU_features) ∧
    load_data (R := parity_random) 1%Z three_row_files None None None
      = Ok (train2, test2, NYU_features) ∧
    index train1.1 = [0; 1] ∧ index train2.1 = [2; 1].
Proof.
  eexists _, _, _, _, _.
  split; [vm_compute; reflexivity|]. split; [vm_compute; reflexivity|]. done.
Qed.

(** ** C5: the column that is popped by default *)

Lemma get_loc_cons c cols name :
  get_loc (c :: cols) name =
    if decide (c = name) then Some 0 else S <$> get_loc cols name.
Proof.
  unfold get_loc. simpl. case_decide; [done|].
  by destruct (list_find _ cols) as [[j x]|].
Qed.

Lemma value_no_cells cols name i : value cols name (i, []) = F64.nan.
Proof. unfold value. by destruct (get_loc cols name). Qed.

Lemma value_cons c cols name i x cells :
  value (c :: cols) name (i, x :: cells) =
    if decide (c = name) then x else value cols name (i, cells).
Proof.
  unfold value. rewrite get_loc_cons. case_decide; [done|].
  by destruct (get_loc cols name).
Qed.

(** The other columns keep their values when a column is deleted from the
    names and from the cells. *)
Lemma value_delete cols p label name i cells :
  cols !! p = Some label → name ≠ label →
  value (delete p cols) name (i, delete p cells) = value cols name (i, cells).
Proof.
  revert p cells. induction cols as [|c cols IH]; intros p cells; [done|].
  destruct p as [|p]; simpl.
  - intros [= ->] Hne. destruct cells as [|x cells]; simpl.
    + by rewrite !value_no_cells.
    + rewrite value_cons. by rewrite decide_False.
  - intros Hp Hne. destruct cells as [|x cells]; simpl.
    + by rewrite !value_no_cells.
    + rewrite !value_cons. case_decide; [done|]. by apply IH.
Qed.

(** What [pop] leaves and what it returns, row by row. *)
Lemma pop_rows df label out i r :
  pop df label = Ok out →
  rows df !! i = Some r →
  ∃ p, get_loc (columns df) label = Some p ∧
    columns out.1 = delete p (columns df) ∧
    rows out.1 !! i = Some (r.1, delete p r.2) ∧
    out.2 !! i = Some (r.1, value (columns df) label r) ∧
    ∀ name, name ≠ label →
      value (columns out.1) name (r.1, delete p r.2) = value (columns df) name r.
Proof.
  intros (p & Hp & -> & ->)%pop_inv Hr. exists p. simpl.
  split; [done|]. split; [done|].
  split; [by apply (list_lookup_fmap_Some_2 (λ r, (r.1, delete p r.2)))|].
  split.
  { unfold value. rewrite Hp.
    by apply (list_lookup_fmap_Some_2 (λ r, (r.1, cell p r))). }
  intros name Hne. destruct r as [j cells].
  apply (value_delete _ _ label); [|done]. by apply get_loc_Some.
Qed.

Lemma pop_length df label out :
  pop df label = Ok out →
  length (rows out.1) = length (rows df) ∧ length out.2 = length (rows df).
Proof.
  intros (p & Hp & -> & ->)%pop_inv. simpl. by rewrite !length_map.
Qed.

(** C5, as stated, fails: without a [label_name] it is SubhaloMassInRad
    that is popped.  On three rows of raw stellar mass 5, wind mass 2 and
    halo mass 1, SubhaloMassInRadType4 is still a column of the Train and
    Test feature tables, and the labels are the halo masses. *)
Lemma default_label_is_not_the_stellar_mass :
  ∃ train test NYU_features,
    load_data (R := parity_random) 0%Z three_row_files None None (Some 7%Z)
      = Ok (train, test, NYU_features) ∧
    "SubhaloMassInRadType4"%string ∈ columns train.1 ∧
    "SubhaloMassInRadType4"%string ∈ columns test.1 ∧
    train.2.*2 = [F64.of_Z 1; F64.of_Z 1] ∧ test.2.*2 = [F64.of_Z 1].
Proof.
  eexists _, _, _. split; [vm_compute; reflexivity|]. simpl.
  split; [apply (bool_decide_unpack _); by vm_compute|].
  split; [apply (bool_decide_unpack _); by vm_compute|]. done.
Qed.

Section DefaultLabel.
Context {R : NumpyRandom}.

(** C5 (amended): when [load_data] is called without a [label_name], the
    column popped from Train and from Test is SubhaloMassInRad.  It is
    absent from the two feature tables that are returned, which keep
    SubhaloMassInRadType4 and every other column with its values, and the
    i-th label is the SubhaloMassInRad of the i-th row, under the same row
    label. *)
Theorem default_label_is_halo_mass os files train_fraction seed
    train test NYU_features :
  load_data os files None train_fraction seed
    = Ok (train, test, NYU_features) →
  ∃ halo_cut train_features test_features,
    load_data_stages os files None train_fraction seed
      halo_cut train_features test_features train test NYU_features ∧
    ∀ features part,
      (features, part) = (train_features, train) ∨
      (features, part) = (test_features, test) →
      columns features = ILLUSTRIS_COLUMN_NAMES ∧
      columns part.1 = delete 15 ILLUSTRIS_COLUMN_NAMES ∧
      ("SubhaloMassInRad"%string ∉ columns part.1) ∧
      "SubhaloMassInRadType4"%string ∈ columns part.1 ∧
      length (rows part.1) = length (rows features) ∧
      length part.2 = length (rows features) ∧
      ∀ i r, rows features !! i = Some r →
        ∃ r', rows part.1 !! i = Some r' ∧ r'.1 = r.1 ∧
          part.2 !! i = Some (r.1, illustris "SubhaloMassInRad" r) ∧
          ∀ name, name ≠ "SubhaloMassInRad"%string →
            value (columns part.1) name r' = illustris name r.
Proof.
  intros (hc & tr & te & Hst)%load_data_Ok. exists hc, tr, te.
  split; [done|]. destruct Hst as (Hhc & _ & Hsplit & Htrain & Htest).
  simpl in Hhc, Htrain, Htest.
  destruct (split_columns _ _ _ _ _ _ Hsplit) as [Htr Hte].
  rewrite (halo_cut_columns _ _ Hhc) in Htr, Hte.
  assert (∀ features part,
    columns features = ILLUSTRIS_COLUMN_NAMES →
    pop features default_label_name = Ok part →
    columns part.1 = delete 15 ILLUSTRIS_COLUMN_NAMES) as Hcols.
  { intros features part Hc (p & Hp & -> & _)%pop_inv. simpl.
    rewrite Hc in Hp |- *. unfold default_label_name in Hp.
    rewrite illustris_halo in Hp. by injection Hp as <-. }
  assert (∀ features part,
    columns features = ILLUSTRIS_COLUMN_NAMES →
    pop features default_label_name = Ok part →
    ∀ i r, rows features !! i = Some r →
      ∃ r', rows part.1 !! i = Some r' ∧ r'.1 = r.1 ∧
        part.2 !! i = Some (r.1, illustris "SubhaloMassInRad" r) ∧
        ∀ name, name ≠ "SubhaloMassInRad"%string →
          value (columns part.1) name r' = illustris name r) as Hrows.
  { intros features part Hc Hpop i r Hr.
    destruct (pop_rows _ _ _ _ _ Hpop Hr) as (p & _ & _ & Hi & Hl & Hv).
    rewrite Hc in Hl, Hv. by exists (r.1, delete p r.2). }
  intros features part [[= -> ->]|[= -> ->]].
  - split; [done|]. rewrite (Hcols _ _ Htr Htrain).
    split; [done|]. split; [apply (bool_decide_unpack _); by vm_compute|].
    split; [apply (bool_decide_unpack _); by vm_compute|].
    destruct (pop_length _ _ _ Htrain). split; [done|]. split; [done|].
    rewrite <-(Hcols _ _ Htr Htrain). by apply Hrows.
  - split; [done|]. rewrite (Hcols _ _ Hte Htest).
    split; [done|]. split; [apply (bool_decide_unpack _); by vm_compute|].
    split; [apply (bool_decide_unpack _); by vm_compute|].
    destruct (pop_length _ _ _ Htest). split; [done|]. split; [done|].
    rewrite <-(Hcols _ _ Hte Htest). by apply Hrows.
Qed.

End DefaultLabel.

(** A run on three rows: SubhaloMassInRad is in neither feature table. *)
Lemma default_label_is_halo_mass_witness :
  ∃ train test : DataFrame * Series,
    ("SubhaloMassInRad"%string ∉ columns train.1) ∧
    ("SubhaloMassInRad"%string ∉ columns test.1).
Proof.
  edestruct (default_label_is_halo_mass (R := parity_random) 0%Z
               three_row_files None (Some 7%Z))
    as (hc & tr & te & _ & Hpop); [vm_compute; reflexivity|].
  eexists _, _. split.
  - apply (Hpop tr _ (or_introl eq_refl)).
  - apply (Hpop te _ (or_intror eq_refl)).
Defined.

(** ** C7: a [train_fraction] that is rejected *)



Section TrainFraction.
Context {R : NumpyRandom}.



End TrainFraction.


(** ** C3: the stellar masses of the NYU table *)

Lemma NYU_features_index body NYU_features i cells :
  nData_stell_top_cut (read_csv NYU_COLUMN_NAMES body) = Ok NYU_features →
  body !! i = Some cells →
  i ∈ index NYU_features ↔ in_support (converted (i, cells)).
Proof.
  intros Hnyu Hcells. unfold index. rewrite list_elem_of_fmap. split.
  - intros (r & -> & (cells' & Hcells' & Hr & Hs)%(NYU_features_rows _ _ _ Hnyu)).
    rewrite Hcells in Hcells'. injection Hcells' as <-. by rewrite <-Hr.
  - intros Hs. exists (converted (i, cells)). split; [done|].
    apply (NYU_features_rows _ _ _ Hnyu). by exists cells.
Qed.

Lemma NYU_features_columns body NYU_features :
  nData_stell_top_cut (read_csv NYU_COLUMN_NAMES body) = Ok NYU_features →
  columns NYU_features = NYU_COLUMN_NAMES.
Proof. rewrite nData_stell_top_cut_read_csv. by intros [= <-]. Qed.

Lemma of_decimal_1_7_not_nan : F64.is_nan (F64.of_decimal 1 7) = false.
Proof. reflexivity. Qed.

(** C3, as stated, fails at the lower bound: a raw stellar mass of 1000 is
    converted to exactly the float64 1e-7, which is not below 1e-7, so the
    row is kept, and its stellar mass is not strictly greater than 1e-7. *)
Lemma survey_lower_bound_is_kept :
  ∃ train test NYU_features r,
    load_data (R := parity_random) 0%Z boundary_files None None (Some 7%Z)
      = Ok (train, test, NYU_features) ∧
    r ∈ rows NYU_features ∧
    nyu "SubhaloMassInRadType4" r = F64.of_decimal 1 7 ∧
    F64.ltb (F64.of_decimal 1 7) (nyu "SubhaloMassInRadType4" r) = false.
Proof.
  eexists _, _, _, _. split; [vm_compute; reflexivity|].
  split; [simpl; apply list_elem_of_here|]. split; vm_compute; reflexivity.
Qed.

Section SurveySupport.
Context {R : NumpyRandom}.

(** C3 (amended): every row of the NYU table that is returned has a
    stellar mass, the raw value divided by 10^10, that is not below 1e-7
    and not at or above 150; so it lies in [1e-7, 150), the lower bound
    included, whenever it is not NaN. *)
Theorem survey_rows_in_support os files label_name train_fraction seed
    train test NYU_features :
  load_data os files label_name train_fraction seed
    = Ok (train, test, NYU_features) →
  columns NYU_features = NYU_COLUMN_NAMES ∧
  ∀ r, r ∈ rows NYU_features →
    ∃ cells, NYU_csv files !! r.1 = Some cells ∧
      nyu "SubhaloMassInRadType4" r
        = F64.div (nyu "SubhaloMassInRadType4" (r.1, cells))
            (F64.of_Z (10 ^ 10)) ∧
      F64.ltb (nyu "SubhaloMassInRadType4" r) (F64.of_decimal 1 7) = false ∧
      F64.geb (nyu "SubhaloMassInRadType4" r) (F64.of_Z 150) = false ∧
      (F64.is_nan (nyu "SubhaloMassInRadType4" r) = false →
       F64.leb (F64.of_decimal 1 7) (nyu "SubhaloMassInRadType4" r) = true ∧
       F64.ltb (nyu "SubhaloMassInRadType4" r) (F64.of_Z 150) = true).
Proof.
  intros (hc & tr & te & _ & Hnyu & _)%load_data_Ok. simpl in Hnyu.
  split; [by apply (NYU_features_columns _ _ Hnyu)|].
  intros r (cells & Hcells & Hr & Hs)%(NYU_features_rows _ _ _ Hnyu).
  exists cells. split; [done|].
  apply in_support_nyu in Hs as [Hlow Htop].
  destruct r as [i c]; simpl in *.
  rewrite Hr in Hlow, Htop |- *. clear Hr.
  rewrite converted_stellar in Hlow, Htop |- *.
  split; [done|]. split; [done|]. split; [done|].
  intros Hnan. split; [by apply ltb_false_leb|by apply geb_false_ltb].
Qed.

End SurveySupport.

(** A run on the rows of the worked example. *)
Lemma survey_rows_in_support_witness :
  ∃ NYU_features, columns NYU_features = NYU_COLUMN_NAMES.
Proof.
  edestruct (survey_rows_in_support (R := parity_random) 0%Z
               worked_example_files None None (Some 7%Z)) as [Hcols _];
    [vm_compute; reflexivity|].
  eexists. exact Hcols.
Defined.

(** ** C8: the worked example of the NYU table *)

Lemma convert_2e10 :
  F64.div (F64.of_Z 20000000000) (F64.of_Z (10 ^ 10)) = F64.of_Z 2.
Proof. reflexivity. Qed.

Lemma convert_2e12 :
  F64.div (F64.of_Z 2000000000000) (F64.of_Z (10 ^ 10)) = F64.of_Z 200.
Proof. reflexivity. Qed.

(** 5e-6 divided by 10^10 is about 5e-16, below 1e-7. *)
Lemma convert_5e_6_is_below :
  F64.ltb (F64.div (F64.of_decimal 5 6) (F64.of_Z (10 ^ 10)))
    (F64.of_decimal 1 7) = true.
Proof. reflexivity. Qed.

(** C8, as stated, fails on its second row: of the rows of raw stellar
    mass 2e10, 5e-6 and 2e12, only the first is returned; the row of raw
    stellar mass 5e-6 is converted to a value below 1e-7 and dropped. *)
Lemma survey_row_5e_6_is_dropped :
  ∃ train test NYU_features,
    load_data (R := parity_random) 0%Z worked_example_files None None
      (Some 7%Z) = Ok (train, test, NYU_features) ∧
    NYU_csv worked_example_files !! 1 = Some (nyu_row (F64.of_decimal 5 6)) ∧
    index NYU_features = [0] ∧
    1 ∉ index NYU_features.
Proof.
  eexists _, _, _. split; [vm_compute; reflexivity|]. split; [done|].
  split; [done|]. simpl. by intros [=]%list_elem_of_singleton.
Qed.

Section SurveyExample.
Context {R : NumpyRandom}.

(** C8 (amended): a row of the NYU file with raw stellar mass 2e10 is
    returned with the converted value 2; a row with raw stellar mass 5e-6
    is converted to a value below 1e-7 and dropped; a row with raw stellar
    mass 2e12 is converted to 200 and dropped. *)
Theorem survey_worked_example os files label_name train_fraction seed
    train test NYU_features :
  load_data os files label_name train_fraction seed
    = Ok (train, test, NYU_features) →
  ∀ i cells, NYU_csv files !! i = Some cells →
    (nyu "SubhaloMassInRadType4" (i, cells) = F64.of_Z 20000000000 →
     ∃ r, r ∈ rows NYU_features ∧ r.1 = i ∧
       nyu "SubhaloMassInRadType4" r = F64.of_Z 2) ∧
    (nyu "SubhaloMassInRadType4" (i, cells) = F64.of_decimal 5 6 →
     F64.ltb (nyu "SubhaloMassInRadType4" (converted (i, cells)))
       (F64.of_decimal 1 7) = true ∧
     i ∉ index NYU_features) ∧
    (nyu "SubhaloMassInRadType4" (i, cells) = F64.of_Z 2000000000000 →
     nyu "SubhaloMassInRadType4" (converted (i, cells)) = F64.of_Z 200 ∧
     i ∉ index NYU_features).
Proof.
  intros (hc & tr & te & _ & Hnyu & _)%load_data_Ok. simpl in Hnyu.
  intros i cells Hcells.
  pose proof (NYU_features_index _ _ _ _ Hnyu Hcells) as Hindex.
  rewrite in_support_nyu, converted_stellar in Hindex.
  rewrite converted_stellar. split; [|split].
  - intros Hraw. rewrite Hraw, convert_2e10 in Hindex.
    exists (converted (i, cells)). split.
    + apply (NYU_features_rows _ _ _ Hnyu). exists cells.
      split; [done|]. split; [done|].
      apply in_support_nyu. rewrite converted_stellar, Hraw, convert_2e10.
      done.
    + split; [done|]. by rewrite converted_stellar, Hraw, convert_2e10.
  - intros Hraw. rewrite Hraw in Hindex |- *.
    split; [apply convert_5e_6_is_below|].
    rewrite Hindex, convert_5e_6_is_below. by intros [? _].
  - intros Hraw. rewrite Hraw, convert_2e12 in Hindex |- *.
    split; [done|]. rewrite Hindex. by intros [_ ?].
Qed.

End SurveyExample.

(** A run on the three rows of the worked example. *)
Lemma survey_worked_example_witness :
  ∃ NYU_features,
    (∃ r, r ∈ rows NYU_features ∧ r.1 = 0 ∧
       nyu "SubhaloMassInRadType4" r = F64.of_Z 2) ∧
    (1 ∉ index NYU_features) ∧ (2 ∉ index NYU_features).
Proof.
  assert (∃ train test NYU_features,
    load_data (R := parity_random) 0%Z worked_example_files None None
      (Some 7%Z) = Ok (train, test, NYU_features))
    as (train & test & NYU_features & Hrun).
  { eexists _, _, _. vm_compute. reflexivity. }
  pose proof (survey_worked_example (R := parity_random) _ _ _ _ _ _ _ _ Hrun)
    as Hrows.
  destruct (Hrows 0 (nyu_row (F64.of_Z 20000000000)) eq_refl) as (H0 & _ & _).
  destruct (Hrows 1 (nyu_row (F64.of_decimal 5 6)) eq_refl) as (_ & H1 & _).
  destruct (Hrows 2 (nyu_row (F64.of_Z 2000000000000)) eq_refl) as (_ & _ & H2).
  exists NYU_features. split; [by apply H0|].
  split; [by apply H1|by apply H2].
Defined.

(** ** C9: the elements of the dataset *)

Lemma list_to_map_imap_lookup {A} (f : nat → A) (cols : list string) name :
  (list_to_map (imap (λ j c, (c, f j)) cols) : gmap string A) !! name
    = f <$> get_loc cols name.
Proof.
  revert f. induction cols as [|c cols IH]; intros f; [done|].
  rewrite imap_cons, list_to_map_cons, get_loc_cons. case_decide as Hc.
  - subst c. by rewrite lookup_insert_eq.
  - rewrite lookup_insert_ne by done.
    change (imap ((λ j c, (c, f j)) ∘ S) cols)
      with (imap (λ j c, (c, (f ∘ S) j)) cols).
    rewrite IH. by destruct (get_loc cols name).
Qed.

Lemma dict_lookup features name :
  dict features !! name =
    (λ j, map (cell j) (rows features)) <$> get_loc (columns features) name.
Proof.
  unfold dict.
  apply (list_to_map_imap_lookup (λ j, map (cell j) (rows features))).
Qed.

Lemma dict_first_dims features :
  Forall (λ n, n = length (rows features))
    (length <$> (map_to_list (dict features)).*2).
Proof.
  apply Forall_fmap, Forall_fmap, Forall_forall.
  intros [name v] Hv%elem_of_map_to_list. simpl.
  rewrite dict_lookup in Hv.
  destruct (get_loc (columns features) name) as [j|]; [|done].
  injection Hv as <-. by rewrite length_map.
Qed.

Lemma dict_non_empty features :
  columns features ≠ [] → map_to_list (dict features) ≠ [].
Proof.
  destruct (columns features) as [|c cols] eqn:Hcols; [done|].
  intros _ Hempty%map_to_list_empty_iff.
  pose proof (dict_lookup features c) as Hc.
  rewrite Hempty, Hcols, get_loc_cons, decide_True in Hc by done.
  by rewrite lookup_empty in Hc.
Qed.

Lemma forallb_eqb n dims :
  Forall (λ k, k = n) dims → forallb (Nat.eqb n) dims = true.
Proof.
  induction 1 as [|k dims -> _ IH]; [done|].
  simpl. by rewrite Nat.eqb_refl.
Qed.

Lemma from_tensor_slices_Ok t n :
  first_dims t ≠ [] →
  Forall (λ k, k = n) (first_dims t) →
  from_tensor_slices t = Ok (mkDataset t n).
Proof.
  unfold from_tensor_slices.
  destruct (first_dims t) as [|k dims]; [done|].
  intros _ [-> Hdims]%Forall_cons. by rewrite forallb_eqb.
Qed.

(** The elements a cursor at position [i] still yields. *)
Lemma iterate_from ds i steps :
  i ≤ num_elements ds → num_elements ds - i ≤ steps →
  iterate steps (mkIterator ds i)
    = slice (tensors ds) <$> seq i (num_elements ds - i).
Proof.
  revert i. induction steps as [|steps IH]; intros i Hi Hsteps.
  - by replace (num_elements ds - i) with 0 by lia.
  - simpl. unfold get_next. simpl. case_decide as Hlt.
    + rewrite IH by lia.
      by replace (num_elements ds - i) with (S (num_elements ds - S i)) by lia.
    + by replace (num_elements ds - i) with 0 by lia.
Qed.

Lemma iterate_all ds steps :
  num_elements ds ≤ steps →
  iterate steps (make_iterator ds)
    = slice (tensors ds) <$> seq 0 (num_elements ds).
Proof.
  intros Hsteps. unfold make_iterator. rewrite iterate_from by lia.
  by rewrite Nat.sub_0_r.
Qed.

Lemma at_row_column (l : list Row) i r j :
  l !! i = Some r → at_row i (map (cell j) l) = cell j r.
Proof.
  intros Hr. unfold at_row.
  pose proof (list_lookup_fmap_Some_2 (cell j) _ _ _ Hr) as Hcell.
  change (map (cell j) l !! i = Some (cell j r)) in Hcell.
  by rewrite Hcell.
Qed.

(** The mapping of the [i]-th slice: every column name to the cell of
    the [i]-th row. *)
Lemma slice_mapping features i r name :
  rows features !! i = Some r →
  (at_row i <$> dict features) !! name
    = (λ j, cell j r) <$> get_loc (columns features) name.
Proof.
  intros Hr. rewrite lookup_fmap, dict_lookup.
  destruct (get_loc (columns features) name) as [j|]; [|done].
  simpl. by rewrite (at_row_column _ _ _ _ Hr).
Qed.




(** * Further properties of [load_data] and [make_dataset] *)

(** ** A label that is not a column, a seed that numpy rejects *)

Lemma get_loc_None cols name : name ∉ cols → get_loc cols name = None.
Proof.
  induction cols as [|c cols IH]; [done|].
  rewrite not_elem_of_cons, get_loc_cons. intros [Hne Hnot].
  rewrite decide_False by done. by rewrite IH.
Qed.

Lemma get_loc_elem_of cols name :
  name ∈ cols → ∃ p, get_loc cols name = Some p.
Proof.
  induction cols as [|c cols IH]; [by intros ?%elem_of_nil|].
  rewrite get_loc_cons. case_decide; [by exists 0|].
  intros [?|Hin]%elem_of_cons; [done|].
  destruct (IH Hin) as [p ->]. by exists (S p).
Qed.

Lemma valid_seed_out_of_range (s : Z) :
  (s < 0 ∨ 2 ^ 32 ≤ s)%Z → valid_seed (Some s) = false.
Proof.
  intros Hs. unfold valid_seed.
  destruct (Z.leb_spec 0 s), (Z.ltb_spec s (2 ^ 32)); simpl; try done; lia.
Qed.

Section Rejected.
Context {R : NumpyRandom}.

(** X1: a [label_name] that is not one of the Illustris column names
    never gives a result; once the split has been made, the error is the
    KeyError of [train_features.pop]. *)
Theorem unknown_label_is_a_KeyError os files label train_fraction seed :
  label ∉ ILLUSTRIS_COLUMN_NAMES →
  (∀ out, load_data os files (Some label) train_fraction seed ≠ Ok out) ∧
  ∀ halo_cut train_features test_features,
    iData_halo_cut (raw_dataframe files).1 = Ok halo_cut →
    split os halo_cut (default default_train_fraction train_fraction) seed
      = Ok (train_features, test_features) →
    load_data os files (Some label) train_fraction seed = Raise KeyError.
Proof.
  intros Hlabel. split.
  - intros [[train test] NYU_features]
      (hc & tr & te & Hhc & _ & Hsplit & Hpop & _)%load_data_Ok.
    simpl in Hhc, Hpop. apply pop_inv in Hpop as (p & Hp & _).
    destruct (split_columns _ _ _ _ _ _ Hsplit) as [Htr _].
    rewrite Htr, (halo_cut_columns _ _ Hhc), get_loc_None in Hp; done.
  - intros hc tr te Hhc Hsplit. unfold load_data, raw_dataframe.
    simpl in Hhc. rewrite Hhc, bind_Ok_l.
    rewrite nData_stell_top_cut_read_csv, bind_Ok_l.
    rewrite Hsplit, bind_Ok_l.
    destruct (split_columns _ _ _ _ _ _ Hsplit) as [Htr _].
    rewrite (halo_cut_columns _ _ Hhc) in Htr.
    assert (pop tr label = Raise KeyError) as Hpop.
    { unfold pop. by rewrite Htr, get_loc_None. }
    simpl default. by rewrite Hpop.
Qed.

(** X2: a seed below 0 or above 2^32 - 1 is rejected by
    [np.random.seed]: [load_data] raises ValueError, whatever the files,
    the label and the fraction. *)
Theorem seed_out_of_range_is_a_ValueError os files label_name train_fraction
    (s : Z) :
  (s < 0 ∨ 2 ^ 32 ≤ s)%Z →
  load_data os files label_name train_fraction (Some s) = Raise ValueError.
Proof.
  intros Hs. unfold load_data, raw_dataframe.
  rewrite iData_halo_cut_read_csv, bind_Ok_l.
  rewrite nData_stell_top_cut_read_csv, bind_Ok_l.
  unfold split. by rewrite valid_seed_out_of_range.
Qed.

End Rejected.

Lemma unknown_label_is_a_KeyError_witness :
  load_data (R := parity_random) 0%Z three_row_files
    (Some "SubhaloHaloMass"%string) None (Some 7%Z) = Raise KeyError.
Proof.
  edestruct (unknown_label_is_a_KeyError (R := parity_random) 0%Z
               three_row_files "SubhaloHaloMass"%string None (Some 7%Z))
    as [_ Hkey].
  - apply (bool_decide_unpack _). by vm_compute.
  - eapply Hkey; vm_compute; reflexivity.
Defined.

Lemma seed_out_of_range_is_a_ValueError_witness :
  load_data (R := parity_random) 0%Z three_row_files None None
    (Some (-1)%Z) = Raise ValueError ∧
  load_data (R := parity_random) 0%Z three_row_files None None
    (Some (2 ^ 32)%Z) = Raise ValueError.
Proof.
  split.
  - apply (seed_out_of_range_is_a_ValueError (R := parity_random)). lia.
  - apply (seed_out_of_range_is_a_ValueError (R := parity_random)). lia.
Defined.

(** ** The two tables are processed independently *)

Section Independent.
Context {R : NumpyRandom}.

(** X3: the NYU table that is returned depends on the NYU file only, not
    on the Illustris file, the label, the fraction, the seed or the
    generator's entropy. *)
Theorem NYU_features_depend_on_the_NYU_file_only
    os1 os2 files1 files2 label1 label2 fraction1 fraction2 seed1 seed2
    train1 test1 NYU_features1 train2 test2 NYU_features2 :
  NYU_csv files1 = NYU_csv files2 →
  load_data os1 files1 label1 fraction1 seed1
    = Ok (train1, test1, NYU_features1) →
  load_data os2 files2 label2 fraction2 seed2
    = Ok (train2, test2, NYU_features2) →
  NYU_features1 = NYU_features2.
Proof.
  intros Hfile (? & ? & ? & _ & Hnyu1 & _)%load_data_Ok
    (? & ? & ? & _ & Hnyu2 & _)%load_data_Ok.
  simpl in Hnyu1, Hnyu2. rewrite Hfile in Hnyu1. congruence.
Qed.

(** X4: Train and Test depend on the Illustris file only: with another
    NYU file, the same call returns the same Train and Test. *)
Theorem train_and_test_ignore_the_NYU_file os files1 files2 label_name
    train_fraction seed train test NYU_features1 :
  Illustris_V3_csv files1 = Illustris_V3_csv files2 →
  load_data os files1 label_name train_fraction seed
    = Ok (train, test, NYU_features1) →
  ∃ NYU_features2,
    load_data os files2 label_name train_fraction seed
      = Ok (train, test, NYU_features2).
Proof.
  intros Hfile (hc & tr & te & Hhc & _ & Hsplit & Htrain & Htest)%load_data_Ok.
  eexists. apply load_data_Ok. exists hc, tr, te.
  unfold load_data_stages. simpl in *. rewrite <-Hfile.
  split; [done|]. split; [apply nData_stell_top_cut_read_csv|done].
Qed.

End Independent.

Lemma NYU_features_depend_on_the_NYU_file_only_witness :
  ∃ NYU_features1 NYU_features2 : DataFrame,
    index NYU_features1 = [0] ∧ NYU_features1 = NYU_features2.
Proof.
  eexists _, _. split; [|
    eapply (NYU_features_depend_on_the_NYU_file_only (R := parity_random)
              0%Z 1%Z worked_example_files worked_example_files
              None (Some "B300"%string) None (Some F64.zero) (Some 7%Z) None);
    [reflexivity|vm_compute; reflexivity|vm_compute; reflexivity]].
  reflexivity.
Defined.

Lemma train_and_test_ignore_the_NYU_file_witness :
  ∃ train test NYU_features,
    load_data (R := parity_random) 0%Z boundary_files None None (Some 7%Z)
      = Ok (train, test, NYU_features) ∧
    index train.1 = [2; 1].
Proof.
  edestruct (train_and_test_ignore_the_NYU_file (R := parity_random) 0%Z
               three_row_files boundary_files None None (Some 7%Z))
    as [NYU_features Hrun]; [reflexivity|vm_compute; reflexivity|].
  eexists _, _, _. split; [exact Hrun|reflexivity].
Defined.

(** ** What the cuts keep, and what they leave untouched *)


Section Cuts.
Context {R : NumpyRandom}.




End Cuts.




(** ** The label column, for any [label_name] *)

Lemma elem_of_delete_NoDup {A} (l : list A) p x y :
  NoDup l → l !! p = Some x → y ∈ delete p l ↔ y ∈ l ∧ y ≠ x.
Proof.
  intros Hnd Hp. pose proof (delete_not_elem_of l p x Hnd Hp) as Hx.
  pose proof (take_drop_middle l p x Hp) as Hl.
  assert (y ∈ l ↔ y ∈ take p l ++ x :: skipn (S p) l) as -> by by rewrite Hl.
  rewrite delete_take_drop in Hx |- *.
  rewrite elem_of_app in Hx. rewrite !elem_of_app, elem_of_cons.
  split.
  - intros Hy. split; [tauto|]. intros ->. by apply Hx.
  - tauto.
Qed.

Section Labels.
Context {R : NumpyRandom}.

(** X8: when [load_data] returns with a given [label_name], that name is
    an Illustris column; the Train and Test feature tables have every
    Illustris column but that one, with the values of the rows before the
    pop, and the i-th label is the value of the label column in the i-th
    row, under the same row label. *)
Theorem label_is_popped_and_aligned os files label train_fraction seed
    train test NYU_features :
  load_data os files (Some label) train_fraction seed
    = Ok (train, test, NYU_features) →
  label ∈ ILLUSTRIS_COLUMN_NAMES ∧
  ∃ halo_cut train_features test_features,
    load_data_stages os files (Some label) train_fraction seed
      halo_cut train_features test_features train test NYU_features ∧
    ∀ features part,
      (features, part) = (train_features, train) ∨
      (features, part) = (test_features, test) →
      (∀ name, name ∈ columns part.1 ↔
                 name ∈ ILLUSTRIS_COLUMN_NAMES ∧ name ≠ label) ∧
      ∀ i r, rows features !! i = Some r →
        ∃ r', rows part.1 !! i = Some r' ∧ r'.1 = r.1 ∧
          part.2 !! i = Some (r.1, illustris label r) ∧
          ∀ name, name ≠ label →
            value (columns part.1) name r' = illustris name r.
Proof.
  intros (hc & tr & te & Hst)%load_data_Ok.
  destruct Hst as (Hhc & Hnyu & Hsplit & Htrain & Htest).
  pose proof Hhc as Hhc'. simpl in Hhc', Htrain, Htest.
  destruct (split_columns _ _ _ _ _ _ Hsplit) as [Htr Hte].
  rewrite (halo_cut_columns _ _ Hhc') in Htr, Hte.
  assert (∀ features part,
    columns features = ILLUSTRIS_COLUMN_NAMES →
    pop features label = Ok part →
    label ∈ ILLUSTRIS_COLUMN_NAMES ∧
    (∀ name, name ∈ columns part.1 ↔
               name ∈ ILLUSTRIS_COLUMN_NAMES ∧ name ≠ label) ∧
    ∀ i r, rows features !! i = Some r →
      ∃ r', rows part.1 !! i = Some r' ∧ r'.1 = r.1 ∧
        part.2 !! i = Some (r.1, illustris label r) ∧
        ∀ name, name ≠ label →
          value (columns part.1) name r' = illustris name r) as Hpop.
  { intros features part Hc Hpop.
    pose proof Hpop as (p & Hp & Hpart & _)%pop_inv.
    rewrite Hc in Hp. pose proof (get_loc_Some _ _ _ Hp) as Hlabel.
    split; [by eapply list_elem_of_lookup_2|]. split.
    - intros name. rewrite Hpart, Hc. simpl.
      by apply elem_of_delete_NoDup; [apply illustris_names_NoDup|].
    - intros i r Hr.
      destruct (pop_rows _ _ _ _ _ Hpop Hr) as (q & _ & _ & Hi & Hl & Hv).
      rewrite Hc in Hl, Hv. by exists (r.1, delete q r.2). }
  destruct (Hpop tr train Htr Htrain) as (Hlabel & Htrain_cols & Htrain_rows).
  destruct (Hpop te test Hte Htest) as (_ & Htest_cols & Htest_rows).
  split; [done|]. exists hc, tr, te. split; [done|].
  intros features part [[= -> ->]|[= -> ->]]; by split.
Qed.

End Labels.

Lemma label_is_popped_and_aligned_witness :
  ∃ train : DataFrame * Series,
    ("B300"%string ∉ columns train.1) ∧
    "B1000"%string ∈ columns train.1.
Proof.
  edestruct (label_is_popped_and_aligned (R := parity_random) 0%Z
               three_row_files "B300"%string None (Some 7%Z))
    as (_ & hc & tr & te & _ & Hpop); [vm_compute; reflexivity|].
  destruct (Hpop tr _ (or_introl eq_refl)) as [Hcols _].
  eexists. split.
  - intros [_ Hne]%Hcols. by apply Hne.
  - apply Hcols. split; [|done]. apply (bool_decide_unpack _). by vm_compute.
Defined.

(** ** When [make_dataset] succeeds *)

Lemma dict_no_columns features :
  columns features = [] → map_to_list (dict features) = [].
Proof. unfold dict. intros ->. simpl. apply map_to_list_empty. Qed.

(** The first dimensions of the columns of [dict(features)]: one per
    column name, each the number of rows. *)
Lemma dict_dims features :
  ∃ k, length <$> (map_to_list (dict features)).*2
         = replicate k (length (rows features)) ∧
       (k = 0 ↔ columns features = []).
Proof.
  exists (length (length <$> (map_to_list (dict features)).*2)). split.
  - symmetry. apply replicate_as_Forall. split; [done|].
    eapply Forall_impl; [apply dict_first_dims|]. by intros n ->.
  - rewrite !length_fmap. split.
    + intros Hnil%nil_length_inv.
      destruct (columns features) as [|c cols] eqn:Hcols; [done|].
      by destruct (dict_non_empty features); [rewrite Hcols|].
    + intros Hcols. by rewrite dict_no_columns.
Qed.

Lemma forallb_replicate n k tail :
  forallb (Nat.eqb n) (replicate k n ++ tail) = forallb (Nat.eqb n) tail.
Proof. induction k as [|k IH]; [done|]. simpl. by rewrite Nat.eqb_refl. Qed.

(** X9: [make_dataset] succeeds exactly when the label is absent and the
    table has a column, or the label has one value per row, or the table
    has no column at all (the label alone then makes the dataset); in every
    other case it raises ValueError.  The dataset has one element per row,
    or per label value. *)
Theorem make_dataset_succeeds_iff features label :
  ((∃ ds, make_dataset features label = Ok ds) ↔
   match label with
   | None => columns features ≠ []
   | Some l => columns features = [] ∨ length l = length (rows features)
   end) ∧
  (∀ e, make_dataset features label = Raise e → e = ValueError) ∧
  (∀ ds, make_dataset features label = Ok ds →
     num_elements ds =
       match label with
       | None => length (rows features)
       | Some l => length l
       end).
Proof.
  unfold make_dataset, from_tensor_slices, first_dims.
  destruct (dict_dims features) as (k & Hdims & Hk).
  destruct label as [l|]; simpl; rewrite Hdims.
  - destruct k as [|k]; simpl.
    + split; [split; [intros _; left; by apply Hk|by eexists]|].
      split; [done|]. intros ds [= <-]. simpl. by rewrite length_fmap.
    + rewrite forallb_replicate. simpl. rewrite andb_true_r, length_fmap.
      destruct (Nat.eqb_spec (length (rows features)) (length l)) as [Heq|Hne].
      * split; [split; [intros _; by right|by eexists]|].
        split; [done|]. by intros ds [= <-].
      * split; [split; [by intros [ds ?]|]|].
        { intros [Hcols|Heq]; [|done]. by apply Hk in Hcols. }
        split; [by intros e [= <-]|done].
  - rewrite app_nil_r. destruct k as [|k]; simpl.
    + split; [split; [by intros [ds ?]|]|].
      { intros Hcols. by destruct Hcols; apply Hk. }
      split; [by intros e [= <-]|done].
    + rewrite <-(app_nil_r (replicate k _)), forallb_replicate. simpl.
      split; [split; [|by eexists]|].
      { intros _ Hcols. by apply Hk in Hcols. }
      split; [done|]. by intros ds [= <-].
Qed.

(** ** The datasets of the tables that [load_data] returns *)

(** The elements of the dataset of an aligned table and label. *)
Lemma make_dataset_aligned features label :
  (label = None → columns features ≠ []) →
  (∀ l, label = Some l → length l = length (rows features)) →
  ∃ ds, make_dataset features label = Ok ds ∧
    num_elements ds = length (rows features) ∧
    ∀ steps, length (rows features) ≤ steps →
      ∀ i r, rows features !! i = Some r →
        ∃ e, iterate steps (make_iterator ds) !! i = Some e ∧
          (∀ name, mapping e !! name
             = (λ j, cell j r) <$> get_loc (columns features) name) ∧
          label_of e = label ≫= λ l, snd <$> l !! i.
Proof.
  intros Hcols Hlabel.
  set (t := match label with
            | None => Features (dict features)
            | Some l => Labeled (dict features) l.*2
            end).
  exists (mkDataset t (length (rows features))). split.
  { apply from_tensor_slices_Ok.
    - unfold first_dims, t. destruct label as [l|]; simpl.
      + by intros [_ ?]%app_eq_nil.
      + rewrite app_nil_r. intros Hnil%fmap_nil_inv%fmap_nil_inv.
        by apply (dict_non_empty features); [apply Hcols|].
    - unfold first_dims, t. destruct label as [l|]; simpl.
      + apply Forall_app. split; [apply dict_first_dims|].
        apply Forall_singleton. rewrite length_fmap. by apply Hlabel.
      + rewrite app_nil_r. apply dict_first_dims. }
  split; [done|]. intros steps Hsteps i r Hr.
  rewrite iterate_all by done. simpl. exists (slice t i).
  assert (i < length (rows features)) as Hi by by eapply lookup_lt_Some.
  split.
  { apply (list_lookup_fmap_Some_2 (slice t)). by apply lookup_seq_lt. }
  unfold t. destruct label as [l|]; simpl.
  - split; [intros name; by apply slice_mapping|].
    unfold at_row. rewrite list_lookup_fmap.
    destruct (l !! i) as [[k y]|] eqn:Hl; [done|].
    apply lookup_ge_None_1 in Hl. rewrite (Hlabel l) in Hl by done. lia.
  - split; [intros name; by apply slice_mapping|done].
Qed.

Lemma value_get_loc cols name p r :
  get_loc cols name = Some p → cell p r = value cols name r.
Proof. unfold value. by intros ->. Qed.

Section Datasets.
Context {R : NumpyRandom}.

(** X10: the Train and Test pairs that [load_data] returns are always
    accepted by [make_dataset].  The dataset has one element per row, in
    the order of the rows; the i-th element carries the label column's
    value of the i-th row as its label, and maps every other Illustris
    column name to that row's value; the label column's name is not a
    key of the mapping. *)
Theorem train_and_test_datasets os files label_name train_fraction seed
    train test NYU_features :
  load_data os files label_name train_fraction seed
    = Ok (train, test, NYU_features) →
  ∃ halo_cut train_features test_features,
    load_data_stages os files label_name train_fraction seed
      halo_cut train_features test_features train test NYU_features ∧
    ∀ features part,
      (features, part) = (train_features, train) ∨
      (features, part) = (test_features, test) →
      ∃ ds, make_dataset part.1 (Some part.2) = Ok ds ∧
        num_elements ds = length (rows features) ∧
        ∀ steps, length (rows features) ≤ steps →
          ∀ i r, rows features !! i = Some r →
            ∃ e, iterate steps (make_iterator ds) !! i = Some e ∧
              label_of e
                = Some (illustris (default default_label_name label_name) r) ∧
              mapping e !! default default_label_name label_name = None ∧
              ∀ name, name ∈ ILLUSTRIS_COLUMN_NAMES →
                name ≠ default default_label_name label_name →
                mapping e !! name = Some (illustris name r).
Proof.
  intros (hc & tr & te & Hst)%load_data_Ok. exists hc, tr, te.
  split; [done|]. destruct Hst as (Hhc & _ & Hsplit & Htrain & Htest).
  simpl in Hhc.
  destruct (split_columns _ _ _ _ _ _ Hsplit) as [Htr Hte].
  rewrite (halo_cut_columns _ _ Hhc) in Htr, Hte.
  generalize dependent (default default_label_name label_name).
  intros label Htrain Htest.
  assert (∀ features part,
    columns features = ILLUSTRIS_COLUMN_NAMES →
    pop features label = Ok part →
    ∃ ds, make_dataset part.1 (Some part.2) = Ok ds ∧
      num_elements ds = length (rows features) ∧
      ∀ steps, length (rows features) ≤ steps →
        ∀ i r, rows features !! i = Some r →
          ∃ e, iterate steps (make_iterator ds) !! i = Some e ∧
            label_of e = Some (illustris label r) ∧
            mapping e !! label = None ∧
            ∀ name, name ∈ ILLUSTRIS_COLUMN_NAMES → name ≠ label →
              mapping e !! name = Some (illustris name r)) as Hpop.
  { intros features part Hc Hpop.
    destruct (pop_length _ _ _ Hpop) as [Hrows Hlen].
    destruct (make_dataset_aligned part.1 (Some part.2))
      as (ds & Hds & Hn & Hel); [done|intros l [= <-]; congruence|].
    exists ds. split; [done|]. split; [congruence|].
    intros steps Hsteps i r Hr.
    destruct (pop_rows _ _ _ _ _ Hpop Hr) as (p & Hp & Hcols & Hi & Hl & Hv).
    rewrite Hc in Hp, Hcols, Hl, Hv.
    destruct (Hel steps ltac:(lia) i _ Hi) as (e & He & Hmap & Hlab).
    exists e. split; [done|].
    change (label_of e = snd <$> part.2 !! i) in Hlab. rewrite Hl in Hlab.
    split; [done|]. rewrite Hcols in Hmap. split.
    - rewrite Hmap, get_loc_None; [done|].
      apply delete_not_elem_of; [apply illustris_names_NoDup|].
      by apply get_loc_Some.
    - intros name Hin Hne. rewrite Hmap.
      destruct (get_loc_elem_of (delete p ILLUSTRIS_COLUMN_NAMES) name)
        as [q Hq].
      { apply (elem_of_delete_NoDup _ _ label);
          [apply illustris_names_NoDup|by apply get_loc_Some|done]. }
      rewrite Hq. simpl. f_equal.
      rewrite (value_get_loc _ _ _ _ Hq), <-Hcols. by apply Hv. }
  intros features part [[= -> ->]|[= -> ->]]; by apply Hpop.
Qed.

(** X11: the NYU table that [load_data] returns is always accepted by
    [make_dataset] without a label.  The dataset has one element per row,
    in the order of the rows; the i-th element has no label and maps each
    of the five NYU column names to the i-th row's value. *)
Theorem NYU_dataset os files label_name train_fraction seed
    train test NYU_features :
  load_data os files label_name train_fraction seed
    = Ok (train, test, NYU_features) →
  ∃ ds, make_dataset NYU_features None = Ok ds ∧
    num_elements ds = length (rows NYU_features) ∧
    ∀ steps, length (rows NYU_features) ≤ steps →
      ∀ i r, rows NYU_features !! i = Some r →
        ∃ e, iterate steps (make_iterator ds) !! i = Some e ∧
          label_of e = None ∧
          ∀ name, name ∈ NYU_COLUMN_NAMES →
            mapping e !! name = Some (nyu name r).
Proof.
  intros (hc & tr & te & _ & Hnyu & _)%load_data_Ok. simpl in Hnyu.
  pose proof (NYU_features_columns _ _ Hnyu) as Hcols.
  destruct (make_dataset_aligned NYU_features None)
    as (ds & Hds & Hn & Hel); [by rewrite Hcols|done|].
  exists ds. split; [done|]. split; [done|]. intros steps Hsteps i r Hr.
  destruct (Hel steps Hsteps i r Hr) as (e & He & Hmap & Hlab).
  exists e. split; [done|]. split; [done|]. intros name Hin.
  rewrite Hmap, Hcols.
  destruct (get_loc_elem_of NYU_COLUMN_NAMES name Hin) as [q Hq].
  rewrite Hq. simpl. f_equal. by apply value_get_loc.
Qed.

End Datasets.

Lemma train_and_test_datasets_witness :
  ∃ (train : DataFrame * Series) ds,
    make_dataset train.1 (Some train.2) = Ok ds ∧ num_elements ds = 2.
Proof.
  edestruct (train_and_test_datasets (R := parity_random) 0%Z three_row_files
               None None (Some 7%Z))
    as (hc & tr & te & (Hhc & _ & Hsplit & _) & Hds);
    [vm_compute; reflexivity|].
  destruct (Hds tr _ (or_introl eq_refl)) as (ds & Hmk & Hn & _).
  eexists _, ds. split; [exact Hmk|]. rewrite Hn.
  vm_compute in Hhc. injection Hhc as <-.
  vm_compute in Hsplit. by injection Hsplit as <- _.
Defined.

Lemma NYU_dataset_witness :
  ∃ NYU_features ds,
    make_dataset NYU_features None = Ok ds ∧ num_elements ds = 1.
Proof.
  edestruct (NYU_dataset (R := parity_random) 0%Z worked_example_files
               None None (Some 7%Z)) as (ds & Hmk & Hn & _);
    [vm_compute; reflexivity|].
  eexists _, ds. split; [exact Hmk|exact Hn].
Defined.

(** ** No row left after the cuts *)

Lemma sample_size_no_rows frac :
  F64.ltb frac F64.zero = false →
  F64.ltb (F64.of_Z 1) frac = false →
  F64.is_nan frac = false →
  sample_size frac 0 = Ok 0%Z.
Proof.
  intros Hneg Hup Hnan. unfold sample_size. rewrite Hup, Hneg.
  destruct frac as [s|[]| |s m e]; try done;
    try (by destruct s); try (by vm_compute in Hneg);
    by vm_compute in Hup.
Qed.

Section NoRowLeft.
Context {R : NumpyRandom}.

Lemma split_no_rows os cols frac seed :
  valid_seed seed = true →
  F64.ltb frac F64.zero = false →
  F64.ltb (F64.of_Z 1) frac = false →
  F64.is_nan frac = false →
  split os (mkDF cols []) frac seed = Ok (mkDF cols [], mkDF cols []).
Proof.
  intros Hseed Hneg Hup Hnan. unfold split. rewrite Hseed.
  unfold sample. simpl length. rewrite sample_size_no_rows by done.
  rewrite bind_Ok_l. unfold choice. simpl. reflexivity.
Qed.

(** X12: when no line of the Illustris file passes the two cuts (the file
    may have no line at all), [load_data] does not fail: for a label that
    is a column, a seed numpy accepts and a fraction from 0 to 1, it
    returns an empty Train and an empty Test, with empty label
    sequences. *)
Theorem no_row_left_gives_empty_sets os files label train_fraction seed :
  (∀ i cells, Illustris_V3_csv files !! i = Some cells →
     F64.ltb (F64.sub (illustris "SubhaloMassInRadType4" (i, cells))
                (illustris "SubhaloWindMass" (i, cells))) F64.zero = true ∨
     F64.ltb (illustris "SubhaloMassInRad" (i, cells)) (F64.of_decimal 1 1)
       = true) →
  label ∈ ILLUSTRIS_COLUMN_NAMES →
  valid_seed seed = true →
  F64.ltb (default default_train_fraction train_fraction) F64.zero = false →
  F64.ltb (F64.of_Z 1) (default default_train_fraction train_fraction)
    = false →
  F64.is_nan (default default_train_fraction train_fraction) = false →
  ∃ train test NYU_features,
    load_data os files (Some label) train_fraction seed
      = Ok (train, test, NYU_features) ∧
    rows train.1 = [] ∧ train.2 = [] ∧ rows test.1 = [] ∧ test.2 = [].
Proof.
  intros Hcut Hlabel Hseed Hneg Hup Hnan.
  destruct (get_loc_elem_of _ _ Hlabel) as [p Hp].
  assert (iData_halo_cut (read_csv ILLUSTRIS_COLUMN_NAMES
                            (Illustris_V3_csv files))
          = Ok (mkDF ILLUSTRIS_COLUMN_NAMES [])) as Hhc.
  { rewrite iData_halo_cut_read_csv. do 2 f_equal. apply filter_none.
    intros r (raw & -> & Hraw)%list_elem_of_fmap Hs.
    apply (read_csv_elem_of ILLUSTRIS_COLUMN_NAMES) in Hraw.
    destruct raw as [i cells]. apply survives_illustris in Hs as [Hs1 Hs2].
    rewrite corrected_stellar in Hs1. rewrite corrected_halo in Hs2.
    destruct (Hcut i cells Hraw); congruence. }
  assert (pop (mkDF ILLUSTRIS_COLUMN_NAMES []) label
          = Ok (mkDF (delete p ILLUSTRIS_COLUMN_NAMES) [], [])) as Hpop.
  { unfold pop. simpl columns. by rewrite Hp. }
  eexists _, _, _. split.
  - unfold load_data, raw_dataframe. rewrite Hhc, bind_Ok_l.
    rewrite nData_stell_top_cut_read_csv, bind_Ok_l.
    rewrite split_no_rows by done. rewrite bind_Ok_l.
    simpl default. rewrite Hpop. reflexivity.
  - done.
Qed.

End NoRowLeft.

Lemma no_row_left_gives_empty_sets_witness :
  ∃ train test NYU_features,
    load_data (R := parity_random) 0%Z (mkFiles [] []) (Some "B300"%string)
      None None = Ok (train, test, NYU_features) ∧
    rows train.1 = [] ∧ rows test.1 = [].
Proof.
  edestruct (no_row_left_gives_empty_sets (R := parity_random) 0%Z
               (mkFiles [] []) "B300"%string None None)
    as (train & test & NYU_features & Hrun & Htrain & _ & Htest & _).
  - intros i cells Hcells. by destruct i.
  - apply (bool_decide_unpack _). by vm_compute.
  - reflexivity.
  - reflexivity.
  - reflexivity.
  - reflexivity.
  - by exists train, test, NYU_features.
Defined.

(** ** Row labels and row order *)

Section FileOrder.
Context {R : NumpyRandom}.


End FileOrder.


(** ** Features and labels are paired by position *)

Lemma cell_cells p (l : list Row) :
  map (cell p) l = (λ c, default F64.nan (c !! p)) <$> l.*2.
Proof. rewrite <-list_fmap_compose. by apply list_fmap_ext. Qed.

(** X14: [make_dataset] looks at the column names, at the cells and at
    the label values only, never at the row labels: the i-th row is paired
    with the i-th label value whatever their index labels are, so a label
    sequence in another order is paired by position, not by index. *)
Theorem make_dataset_pairs_by_position features1 features2 label1 label2 :
  columns features1 = columns features2 →
  (rows features1).*2 = (rows features2).*2 →
  fmap (M := list) snd <$> label1 = fmap (M := list) snd <$> label2 →
  make_dataset features1 label1 = make_dataset features2 label2.
Proof.
  intros Hcols Hcells Hlabel.
  assert (dict features1 = dict features2) as Hdict.
  { unfold dict. rewrite Hcols. f_equal. apply imap_ext. intros j name _.
    by rewrite !cell_cells, Hcells. }
  unfold make_dataset. rewrite Hdict.
  destruct label1 as [l1|], label2 as [l2|]; try done.
  simpl in Hlabel. by injection Hlabel as ->.
Qed.

Lemma make_dataset_pairs_by_position_witness :
  make_dataset two_row_table (Some two_row_label) =
  make_dataset (mkDF (columns two_row_table) [(0, [F64.of_Z 1; F64.of_Z 2]);
                                               (1, [F64.of_Z 3; F64.of_Z 4])])
    (Some [(7, F64.of_Z 5); (4, F64.of_Z 6)]).
Proof.
  apply make_dataset_pairs_by_position; reflexivity.
Defined.
